(** * MRI transform pipeline of [direct/data/mri_transforms.py]

    A shallow embedding of the transform stages and of the pipeline
    builder, with the properties of the specification that concern them.

    Conventions of the embedding.
    - A sample (a Python [dict] from field names to values) is a
      [gmap string value].
    - A tensor is its shape together with its elements in row-major order.
      Element arithmetic is carried out in exact rationals; the only
      arithmetic done in binary64 is the rank computation of
      [ComputeScalingFactor], which the code performs on Python floats and
      where rounding decides the result.
    - A stage call either raises ([Raise e]) or returns the sample
      ([Return s]); the state threaded through the calls holds the global
      random generator and the trace of calls made to the mask generator
      and to the random-crop sampler. *)

From Stdlib Require Import QArith Qround ZArith Lia List Permutation Sorted SpecFloat.
From stdpp Require Import gmap strings list fin_maps.

Local Open Scope string_scope.
Local Open Scope list_scope.
Local Open Scope Z_scope.

(** ** Tensors and sample values *)

Record tensor := mkTensor { shape : list nat; data : list Q }.

(** A NumPy array as the datasets hand it over: complex arrays hold one
    (real, imaginary) pair per element, real arrays leave the second
    component at zero. *)
Record ndarray := mkNdarray
  { nshape : list nat; is_complex : bool; ndata : list (Q * Q) }.

Inductive value :=
  | VNone
  | VFloat (q : Q)
  | VStr (s : string)
  | VTuple (l : list nat)
  | VArray (a : ndarray)
  | VTensor (t : tensor).

Inductive error :=
  | KeyError (key : string)
  | ValueError (msg : string)
  | TypeError (msg : string)
  | AssertionError (msg : string)
  | RuntimeError (msg : string)
  | IndexError (msg : string)
  | ItemNotFoundException (item : string) (msg : string).

Inductive result (A : Type) :=
  | Return (a : A)
  | Raise (e : error).
Arguments Return {A} a.
Arguments Raise {A} e.

Definition rbind {A B} (r : result A) (k : A -> result B) : result B :=
  match r with
  | Return a => k a
  | Raise e => Raise e
  end.

(** ** The world outside the sample *)

Definition seed_t := list nat.

Inductive event :=
  | MaskCall (shp : list nat) (seed : option seed_t) (return_acs : bool)
  | CropDraw (seed : option seed_t) (image_shape : list nat)
             (crop_shape : list (option nat)) (offsets : list nat).

Record world := mkWorld { rng : N; trace : list event }.

(** State and error monad of the stage calls. *)
Definition M (A : Type) := world -> result (A * world).

Definition ret {A} (a : A) : M A := fun w => Return (a, w).
Definition raise {A} (e : error) : M A := fun _ => Raise e.
Definition bind {A B} (m : M A) (k : A -> M B) : M B :=
  fun w => match m w with
           | Return (a, w') => k a w'
           | Raise e => Raise e
           end.
Definition lift {A} (r : result A) : M A :=
  fun w => match r with Return a => Return (a, w) | Raise e => Raise e end.
Definition emit (e : event) : M unit :=
  fun w => Return (tt, mkWorld (rng w) (trace w ++ [e])).

Notation "'let*' x ':=' m 'in' k" := (bind m (fun x => k))
  (at level 10, x name, m at level 100, k at level 200, only parsing).
Notation "'run' m 'then' k" := (bind m (fun _ => k))
  (at level 10, m at level 100, k at level 200, only parsing).

(** [sample[key]] *)
Definition getitem (sample : gmap string value) (key : string) : result value :=
  match sample !! key with
  | Some v => Return v
  | None => Raise (KeyError key)
  end.

Definition as_tensor (v : value) : result tensor :=
  match v with
  | VTensor t => Return t
  | _ => Raise (TypeError "tensor expected")
  end.

Definition get_tensor (sample : gmap string value) (key : string) : result tensor :=
  rbind (getitem sample key) as_tensor.

(** Python's [in] on a list of strings. *)
Definition str_in (k : string) (l : list string) : bool :=
  existsb (String.eqb k) l.
Arguments str_in : simpl never.

(** ** Elementwise helpers on tensors *)

Definition numel (t : tensor) : nat := length (data t).

Definition prod (l : list nat) : nat := fold_right Nat.mul 1%nat l.

Definition wf_tensor (t : tensor) : Prop := length (data t) = prod (shape t).

Definition Qzero_b (q : Q) : bool := Qeq_bool q 0.

(** [tensor / scalar], elementwise. *)
Definition tensor_div (t : tensor) (d : Q) : tensor :=
  mkTensor (shape t) (map (fun x => (x / d)%Q) (data t)).

(** ** Normalize *)

(** The value the Python [if scaling_factor:] tests.  A float is true when
    it is not zero, [None] is false, a tensor with exactly one element is
    true when that element is not zero, and a tensor with several
    elements has no truth value. *)
Definition truthy (v : value) : result bool :=
  match v with
  | VNone => Return false
  | VFloat q => Return (negb (Qzero_b q))
  | VStr s => Return (negb (String.eqb s ""))
  | VTuple l => Return (negb (Nat.eqb (length l) 0))
  | VArray a =>
      match ndata a with
      | [x] =>
          Return (negb (Qzero_b (fst x)
                        && (negb (is_complex a) || Qzero_b (snd x))))
      | _ => Raise (ValueError "truth value of an array is ambiguous")
      end
  | VTensor t =>
      match data t with
      | [x] => Return (negb (Qzero_b x))
      | _ => Raise (RuntimeError "Boolean value of Tensor is ambiguous")
      end
  end.

(** The scalar a value divides by: a float, a one-element tensor, or a
    one-element real array.  (Scalars of the embedding are real; a complex
    array as factor is outside it.) *)
Definition as_scalar (v : value) : result Q :=
  match v with
  | VFloat q => Return q
  | VTensor t =>
      match data t with
      | [x] => Return x
      | _ => Raise (RuntimeError "size of tensors must match")
      end
  | VArray a =>
      match ndata a, is_complex a with
      | [x], false => Return (fst x)
      | _, _ => Raise (TypeError "unsupported operand type(s) for /")
      end
  | _ => Raise (TypeError "unsupported operand type(s) for /")
  end.

(** [sample[key] / scaling_factor] *)
Definition value_div (v : value) (d : Q) : result value :=
  match v with
  | VFloat q => Return (VFloat (q / d)%Q)
  | VTensor t => Return (VTensor (tensor_div t d))
  | VArray a =>
      Return (VArray (mkNdarray (nshape a) (is_complex a)
                (map (fun x => (fst x / d, snd x / d)%Q) (ndata a))))
  | _ => Raise (TypeError "unsupported operand type(s) for /")
  end.

Definition default_keys_to_normalize : list string :=
  ["masked_kspace"; "target"; "kspace"; "body_coil_image";
   "initial_image"; "initial_kspace"].

(** The loop [for key in sample.keys(): ...] of [Normalize.__call__]; it
    replaces values of existing keys only, so it runs over the key list
    taken at loop entry. *)
Fixpoint normalize_loop (keys_to_normalize : list string) (d : Q)
    (keys : list string) (sample : gmap string value)
    : result (gmap string value) :=
  match keys with
  | [] => Return sample
  | key :: rest =>
      if negb (str_in key keys_to_normalize)
      then normalize_loop keys_to_normalize d rest sample
      else
        rbind (getitem sample key) (fun v =>
        rbind (value_div v d) (fun v' =>
        normalize_loop keys_to_normalize d rest (<[key := v']> sample)))
  end.

Definition Normalize_call (scaling_factor_key : string)
    (keys_to_normalize : list string) (sample : gmap string value)
    : result (gmap string value) :=
  let scaling_factor := default VNone (sample !! scaling_factor_key) in
  rbind (truthy scaling_factor) (fun b =>
  if b then
    rbind (as_scalar scaling_factor) (fun d =>
    rbind (normalize_loop keys_to_normalize d
             (map fst (map_to_list sample)) sample) (fun sample' =>
    Return (<["scaling_diff" := VFloat 0]> sample')))
  else Return sample).

(** What the division leaves in a field (used to state the result). *)
Definition div_or_keep (d : Q) (v : value) : value :=
  match value_div v d with Return v' => v' | Raise _ => v end.

(** ** Torch primitives used by the stages *)

Definition Qsum (l : list Q) : Q := fold_right Qplus 0%Q l.

(** [tensor.mean()] over all elements. *)
Definition tensor_mean (t : tensor) : Q :=
  (Qsum (data t) / inject_Z (Z.of_nat (numel t)))%Q.

(** [tensor < scalar], elementwise, as a 0/1 tensor. *)
Definition tensor_lt (t : tensor) (c : Q) : tensor :=
  mkTensor (shape t)
    (map (fun x => match (x ?= c)%Q with Lt => 1%Q | _ => 0%Q end) (data t)).

(** Python index normalisation: a negative index counts from the end. *)
Definition norm_index (i : Z) (len : nat) : option nat :=
  if (0 <=? i) && (i <? Z.of_nat len) then Some (Z.to_nat i)
  else if (i <? 0) && (- Z.of_nat len <=? i) then Some (Z.to_nat (Z.of_nat len + i))
  else None.

(** [tensor.unsqueeze(dim)]: a new axis of size one at position [dim]
    (positions [0 .. ndim], negative ones counted from [ndim + 1]). *)
Definition unsqueeze (dim : Z) (t : tensor) : result tensor :=
  match norm_index dim (S (length (shape t))) with
  | Some d => Return (mkTensor (take d (shape t) ++ 1%nat :: drop d (shape t)) (data t))
  | None => Raise (IndexError "Dimension out of range")
  end.

(** [torch.zeros(shape)] *)
Definition zeros (shp : list nat) : tensor :=
  mkTensor shp (replicate (prod shp) 0%Q).

(** [l[off : off + n]] *)
Definition slice (off n : nat) (l : list Q) : list Q := take n (drop off l).

(** The elements of [t] regrouped in [outer] consecutive blocks of [blk]. *)
Definition blocks (outer blk : nat) (l : list Q) : list (list Q) :=
  map (fun i => slice (i * blk) blk l) (seq 0 outer).

(** [torch.cat([a, b], dim)]: both tensors agree on every axis but [dim];
    along [dim] the slots of [a] come first. *)
Definition cat (dim : nat) (a b : tensor) : result tensor :=
  let sa := shape a in
  let sb := shape b in
  match sa !! dim, sb !! dim with
  | Some na, Some nb =>
      if bool_decide (take dim sa = take dim sb /\ drop (S dim) sa = drop (S dim) sb)
      then
        let outer := prod (take dim sa) in
        let inner := prod (drop (S dim) sa) in
        Return (mkTensor (take dim sa ++ (na + nb)%nat :: drop (S dim) sa)
          (concat (zip_with app (blocks outer (na * inner) (data a))
                                (blocks outer (nb * inner) (data b)))))
      else Raise (RuntimeError "Sizes of tensors must match except in dimension")
  | _, _ => Raise (IndexError "Dimension out of range")
  end.

(** [tensor.select(dim, j)] flattened: slot [j] along axis [dim]. *)
Definition select (dim j : nat) (t : tensor) : list Q :=
  let outer := prod (take dim (shape t)) in
  let n := default 0%nat (shape t !! dim) in
  let inner := prod (drop (S dim) (shape t)) in
  concat (map (fun i => slice (i * (n * inner) + j * inner) inner (data t))
              (seq 0 outer)).

(** [tensor.max()]; an empty tensor has none. *)
Definition Qmax (a b : Q) : Q := if Qle_bool a b then b else a.
Definition tensor_max (l : list Q) : result Q :=
  match l with
  | [] => Raise (RuntimeError "max(): input.numel() == 0")
  | x :: rest => Return (fold_left Qmax rest x)
  end.

(** Ascending insertion sort, the order [torch.kthvalue] selects from. *)
Fixpoint insert_sorted (x : Q) (l : list Q) : list Q :=
  match l with
  | [] => [x]
  | y :: rest => if Qle_bool x y then x :: l else y :: insert_sorted x rest
  end.
Definition sort_asc (l : list Q) : list Q := fold_right insert_sorted [] l.

(** [torch.kthvalue(t, k)]: the [k]-th smallest element, [1 <= k <= numel]. *)
Definition kthvalue (l : list Q) (k : Z) : result Q :=
  if (1 <=? k) && (k <=? Z.of_nat (length l))
  then match sort_asc l !! Z.to_nat (k - 1) with
       | Some x => Return x
       | None => Raise (RuntimeError "kthvalue(): selected number k out of range")
       end
  else Raise (RuntimeError "kthvalue(): selected number k out of range").

(** ** Order statistics, to state what [kthvalue] and [max] select *)

Definition Qltb (x y : Q) : bool := negb (Qle_bool y x).

Fixpoint count_if (f : Q -> bool) (l : list Q) : nat :=
  match l with
  | [] => 0%nat
  | x :: rest => ((if f x then 1 else 0) + count_if f rest)%nat
  end.

(** [r] is the element of rank [j] of [l] counted from the largest: it
    occurs in [l], fewer than [j] elements are greater, and at least [j]
    are greater or equal. *)
Definition rank_from_largest (j : Z) (r : Q) (l : list Q) : Prop :=
  In r l /\
  Z.of_nat (count_if (fun x => Qltb r x) l) < j <= Z.of_nat (count_if (fun x => Qle_bool r x) l).

(** The same, counted from the smallest. *)
Definition rank_from_smallest (j : Z) (r : Q) (l : list Q) : Prop :=
  In r l /\
  Z.of_nat (count_if (fun x => Qltb x r) l) < j <= Z.of_nat (count_if (fun x => Qle_bool x r) l).

Definition is_maximum (m : Q) (l : list Q) : Prop :=
  In m l /\ forall x, In x l -> (x <= m)%Q.

(** The rank the specification names: the ceiling of [(1 - p) * n]. *)
Definition spec_rank (p : Q) (n : nat) : Z :=
  Qceiling ((1 - p) * inject_Z (Z.of_nat n)).

(** ** Binary64 arithmetic of the rank computation *)

Definition f64_prec : Z := 53.
Definition f64_emax : Z := 1024.

Definition f64_of_Z (n : Z) : spec_float := binary_normalize f64_prec f64_emax n 0 false.
Definition f64_one : spec_float := f64_of_Z 1.
Definition f64_sub : spec_float -> spec_float -> spec_float := SFsub f64_prec f64_emax.
Definition f64_mul : spec_float -> spec_float -> spec_float := SFmul f64_prec f64_emax.

(** Truth value of a Python float: everything but the two zeros. *)
Definition f64_truthy (f : spec_float) : bool :=
  match f with S754_zero _ => false | _ => true end.

(** Python's [int(x)] on a float: truncation toward zero. *)
Definition f64_int (f : spec_float) : result Z :=
  match f with
  | S754_zero _ => Return 0
  | S754_finite s m e =>
      let a := if 0 <=? e then Z.pos m * 2 ^ e else Z.pos m / 2 ^ (- e) in
      Return (if s then - a else a)
  | S754_infinity _ => Raise (ValueError "cannot convert float infinity to integer")
  | S754_nan => Raise (ValueError "cannot convert float NaN to integer")
  end.

(** ** Collaborators outside this module *)

(** A Fourier operator as the stages call it: with or without [dim=]. *)
Definition operator := option (list Z) -> tensor -> tensor.

(** The mask generator [mask_func(shape=, seed=, return_acs=)]; it may
    consume the global random generator. *)
Definition mask_func_t := list nat -> option seed_t -> bool -> N -> tensor * N.

(** The functions of [direct.data.transforms] (imported as [T]) and the
    remaining torch and NumPy calls, whose code is outside this module;
    the stages are verified for every implementation of them. *)
Class TransformOps := {
  to_tensor : ndarray -> tensor;
  from_numpy : ndarray -> tensor;
  to_byte : tensor -> tensor;
  py_str : value -> string;
  apply_padding : tensor -> tensor -> tensor;
  apply_mask : tensor -> tensor -> tensor * tensor;
  complex_center_crop : tensor -> list (option nat) -> tensor;
  random_crop_offsets :
    option string -> option (list Q) -> option seed_t ->
    list nat -> list (option nat) -> N -> list nat * N;
  crop_at : list nat -> list (option nat) -> tensor -> tensor;
  modulus : option Z -> tensor -> tensor;
  root_sum_of_squares : nat -> tensor -> tensor;
  complex_multiplication : tensor -> tensor -> tensor;
  conjugate : tensor -> tensor;
  safe_divide : tensor -> tensor -> tensor;
  tensor_sum : nat -> tensor -> tensor;
  tensor_mul : tensor -> tensor -> tensor;
  gaussian_mask : Q -> tensor -> result tensor;
  assert_complex : tensor -> result unit
}.

(** Character codes of a string: [tuple(map(ord, s))]. *)
Definition ords (s : string) : seed_t :=
  map Ascii.nat_of_ascii (String.list_ascii_of_string s).

Definition value_shape (v : value) : result (list nat) :=
  match v with
  | VTensor t => Return (shape t)
  | VArray a => Return (nshape a)
  | _ => Raise (TypeError "object has no attribute shape")
  end.

Definition as_array (v : value) : result ndarray :=
  match v with
  | VArray a => Return a
  | _ => Raise (TypeError "ndarray expected")
  end.

(** [x[1:]] and [x[1:-1]] on a shape. *)
Definition tail_shape (l : list nat) : list nat := drop 1 l.
Definition inner_shape (l : list nat) : list nat :=
  take (length (drop 1 l) - 1) (drop 1 l).

Section Stages.
Context `{ops : TransformOps}.

Definition str_of (v : value) : string :=
  match v with VStr s => s | _ => py_str v end.

(** [None if not use_seed else tuple(map(ord, str(sample["filename"])))] *)
Definition filename_seed (use_seed : bool) (sample : gmap string value)
    : result (option seed_t) :=
  if negb use_seed then Return None
  else rbind (getitem sample "filename") (fun f => Return (Some (ords (str_of f)))).

(** A call of the mask generator, recorded in the trace. *)
Definition call_mask_func (mask_func : mask_func_t) (shp : list nat)
    (seed : option seed_t) (return_acs : bool) : M tensor :=
  fun w =>
    let '(mask, g) := mask_func shp seed return_acs (rng w) in
    Return (mask, mkWorld g (trace w ++ [MaskCall shp seed return_acs])).

(** ** ToTensor *)

Definition convert_if_present (key : string) (f : value -> result value)
    (sample : gmap string value) : result (gmap string value) :=
  match sample !! key with
  | Some v => rbind (f v) (fun v' => Return (<[key := v']> sample))
  | None => Return sample
  end.

Definition ToTensor_call (sample : gmap string value) : result (gmap string value) :=
  rbind (getitem sample "kspace") (fun kv =>
  rbind (value_shape kv) (fun shp =>
  let ndim := Z.of_nat (length shp) - 1 in
  if negb ((ndim =? 2) || (ndim =? 3))
  then Raise (ValueError "Can only cast 2D and 3D data (+coil) to tensor.")
  else
    let conv v := rbind (as_array v) (fun a => Return (VTensor (to_tensor a))) in
    let raw v := rbind (as_array v) (fun a => Return (VTensor (from_numpy a))) in
    rbind (conv kv) (fun k =>
    let sample := <["kspace" := k]> sample in
    rbind (convert_if_present "initial_kspace" conv sample) (fun sample =>
    rbind (convert_if_present "initial_image" conv sample) (fun sample =>
    rbind (convert_if_present "sensitivity_map" conv sample) (fun sample =>
    rbind (convert_if_present "target" Return sample) (fun sample =>
    rbind (convert_if_present "sampling_mask"
             (fun v => rbind (as_array v) (fun a =>
                       Return (VTensor (to_byte (from_numpy a))))) sample) (fun sample =>
    rbind (convert_if_present "acs_mask" raw sample) (fun sample =>
    rbind (convert_if_present "scaling_factor"
             (fun v => match v with
                       | VFloat q => Return (VTensor (mkTensor [] [q]))
                       | VArray a => Return (VTensor (from_numpy a))
                       | VTensor t => Return (VTensor t)
                       | _ => Raise (TypeError "could not convert to tensor")
                       end) sample) (fun sample =>
    convert_if_present "loglikelihood_scaling" raw sample)))))))))).

(** ** CropKspace *)

(** What a caller may pass as [crop]: a key of the sample, a sequence of
    sizes ([None] entries allowed), or something that is neither (here a
    bare number). *)
Inductive crop_obj :=
  | CropKey (key : string)
  | CropShape (sizes : list (option nat))
  | CropScalar (n : Z).

Record CropKspace_t := mkCropKspace {
  ck_crop : crop_obj;
  ck_forward_operator : operator;
  ck_backward_operator : operator;
  ck_image_space_center_crop : bool;
  ck_random_crop_sampler_type : option string;
  ck_random_crop_sampler_use_seed : bool;
  ck_random_crop_sampler_gaussian_sigma : option (list Q)
}.

(** [CropKspace.__init__]: [crop] must be iterable or a string. *)
Definition CropKspace_init (crop : crop_obj) (forward_operator backward_operator : operator)
    (image_space_center_crop : bool) (random_crop_sampler_type : option string)
    (random_crop_sampler_use_seed : bool)
    (random_crop_sampler_gaussian_sigma : option (list Q)) : result CropKspace_t :=
  match crop with
  | CropScalar _ =>
      Raise (ValueError "Invalid input for `crop`. Can be a list of tuple of integers or a string.")
  | _ => Return (mkCropKspace crop forward_operator backward_operator
                   image_space_center_crop random_crop_sampler_type
                   random_crop_sampler_use_seed random_crop_sampler_gaussian_sigma)
  end.

(** Modelled from the spec: [T.complex_random_crop], whose code is outside
    this module.  It draws the crop offset from the configured sampler
    (seeded when a seed is given) and crops the image there. *)
Definition complex_random_crop (sampler : option string) (sigma : option (list Q))
    (image : tensor) (crop_shape : list (option nat)) (seed : option seed_t) : M tensor :=
  fun w =>
    let '(offsets, g) :=
      random_crop_offsets sampler sigma seed (shape image) crop_shape (rng w) in
    Return (crop_at offsets crop_shape image,
            mkWorld g (trace w ++ [CropDraw seed (shape image) crop_shape offsets])).

Definition crop_shape_of (crop : crop_obj) (sample : gmap string value)
    : result (list (option nat)) :=
  match crop with
  | CropKey key =>
      match sample !! key with
      | None => Raise (AssertionError "Not found crop key in sample.")
      | Some (VTuple l) => Return (map Some (take 2 l))
      | Some _ => Raise (TypeError "crop key does not hold a sequence")
      end
  | CropShape sizes => Return sizes
  | CropScalar _ => Raise (TypeError "crop is not iterable")
  end.

Definition CropKspace_call (self : CropKspace_t) (sample : gmap string value)
    : M (gmap string value) :=
  let* kspace := lift (get_tensor sample "kspace") in
  let backprojected_kspace := ck_backward_operator self None kspace in
  let* crop_shape := lift (crop_shape_of (ck_crop self) sample) in
  let* cropped :=
    (if ck_image_space_center_crop self
     then ret (complex_center_crop backprojected_kspace crop_shape)
     else
       let* seed := lift (filename_seed (ck_random_crop_sampler_use_seed self) sample) in
       complex_random_crop (ck_random_crop_sampler_type self)
         (ck_random_crop_sampler_gaussian_sigma self)
         backprojected_kspace crop_shape seed) in
  ret (<["kspace" := VTensor (ck_forward_operator self None cropped)]> sample).

(** ** ComputeZeroPadding and ApplyZeroPadding *)

Definition ComputeZeroPadding_call (kspace_key padding_key : string) (eps : Q)
    (sample : gmap string value) : result (gmap string value) :=
  let coil_dim := 0%nat in
  rbind (get_tensor sample kspace_key) (fun k =>
  let kspace := tensor_sum coil_dim (modulus None k) in
  rbind (unsqueeze (Z.of_nat coil_dim)
           (tensor_lt kspace (tensor_mean kspace * eps)%Q)) (fun p =>
  rbind (unsqueeze (-1) p) (fun padding =>
  Return (<[padding_key := VTensor padding]> sample)))).

Definition ApplyZeroPadding_call (kspace_key padding_key : string)
    (sample : gmap string value) : result (gmap string value) :=
  rbind (get_tensor sample kspace_key) (fun k =>
  rbind (get_tensor sample padding_key) (fun p =>
  Return (<[kspace_key := VTensor (apply_padding k p)]> sample))).

(** ** CreateSamplingMask *)

(** [tuple(_ if _ else kspace_shape[idx] for idx, _ in enumerate(shape))] *)
Fixpoint fill_shape (idx : nat) (shp : list (option nat)) (kspace_shape : list nat)
    : result (list nat) :=
  match shp with
  | [] => Return []
  | d :: rest =>
      rbind (match d with
             | Some (S n) => Return (S n)
             | _ => match kspace_shape !! idx with
                    | Some n => Return n
                    | None => Raise (IndexError "list index out of range")
                    end
             end) (fun n =>
      rbind (fill_shape (S idx) rest kspace_shape) (fun l => Return (n :: l)))
  end.

Definition is_none {A} (o : option A) : bool :=
  match o with None => true | Some _ => false end.

Definition sampling_mask_shape (shp : option (list (option nat)))
    (sample : gmap string value) : result (list nat) :=
  match shp with
  | None | Some [] =>
      rbind (getitem sample "kspace") (fun kv =>
      rbind (value_shape kv) (fun s => Return (tail_shape s)))
  | Some l =>
      if existsb is_none l
      then
        rbind (getitem sample "kspace") (fun kv =>
        rbind (value_shape kv) (fun s =>
        rbind (fill_shape 0 l (inner_shape s)) (fun filled =>
        Return (filled ++ [2%nat]))))
      else Return (map (default 0%nat) l ++ [2%nat])
  end.

Definition CreateSamplingMask_call (mask_func : mask_func_t)
    (shp : option (list (option nat))) (use_seed return_acs : bool)
    (sample : gmap string value) : M (gmap string value) :=
  let* mshape := lift (sampling_mask_shape shp sample) in
  let* seed := lift (filename_seed use_seed sample) in
  let* sampling_mask := call_mask_func mask_func mshape seed false in
  let* sampling_mask :=
    (match sample !! "padding" with
     | Some pv => let* p := lift (as_tensor pv) in ret (apply_padding sampling_mask p)
     | None => ret sampling_mask
     end) in
  let sample := <["sampling_mask" := VTensor sampling_mask]> sample in
  if return_acs then
    let* kv := lift (getitem sample "kspace") in
    let* ks := lift (value_shape kv) in
    let kspace_shape := tail_shape ks in
    let* acs := call_mask_func mask_func kspace_shape seed true in
    ret (<["acs_mask" := VTensor acs]> sample)
  else ret sample.

(** ** ApplyMask *)

Definition ApplyMask_call (sampling_mask_key input_kspace_key target_kspace_key : string)
    (sample : gmap string value) : result (gmap string value) :=
  match sample !! input_kspace_key with
  | None => Raise (ValueError "Key corresponding to `input_kspace_key` not found in sample.")
  | Some kv =>
      match sample !! sampling_mask_key with
      | None => Raise (ValueError "Key corresponding to `sampling_mask_key` not found in sample.")
      | Some mv =>
          rbind (as_tensor kv) (fun input_kspace =>
          rbind (as_tensor mv) (fun sampling_mask =>
          let target_kspace := fst (apply_mask input_kspace sampling_mask) in
          Return (<[target_kspace_key := VTensor target_kspace]> sample)))
      end
  end.

(** ** ComputeImage *)

(** [ComputeImage.__init__] stores its arguments and checks nothing. *)
Record ComputeImage_t := mkComputeImage {
  ci_kspace_key : string;
  ci_target_key : string;
  ci_backward_operator : operator;
  ci_type_reconstruction : string
}.

Definition ComputeImage_init (kspace_key target_key : string)
    (backward_operator : operator) (type_reconstruction : string)
    : result ComputeImage_t :=
  Return (mkComputeImage kspace_key target_key backward_operator type_reconstruction).

Definition ComputeImage_call (self : ComputeImage_t) (sample : gmap string value)
    : result (gmap string value) :=
  let coil_dim := 0%nat in
  let spatial_dims := [1; 2] in
  let complex_dim := -1 in
  rbind (get_tensor sample (ci_kspace_key self)) (fun kspace_data =>
  let image := ci_backward_operator self (Some spatial_dims) kspace_data in
  rbind
    (if str_in (ci_type_reconstruction self) ["complex"; "complex_mod"]
     then Return (<[ci_target_key self := VTensor (tensor_sum coil_dim image)]> sample)
     else if String.eqb (ci_type_reconstruction self) "rss"
     then Return (<[ci_target_key self :=
                     VTensor (root_sum_of_squares coil_dim image)]> sample)
     else
       match sample !! "sensitivity_map" with
       | None => Raise (ItemNotFoundException "sensitivity map"
                          "Sensitivity map is required for SENSE reconstruction.")
       | Some sv =>
           rbind (as_tensor sv) (fun sensitivity_map =>
           Return (<[ci_target_key self :=
                      VTensor (tensor_sum coil_dim
                        (complex_multiplication (conjugate sensitivity_map) image))]>
                     sample))
       end) (fun sample =>
  if str_in (ci_type_reconstruction self) ["complex_mod"; "sense_mod"]
  then
    rbind (get_tensor sample (ci_target_key self)) (fun target =>
    Return (<[ci_target_key self := VTensor (modulus (Some complex_dim) target)]> sample))
  else Return sample)).

(** ** EstimateBodyCoilImage *)

Definition EstimateBodyCoilImage_call (mask_func : mask_func_t)
    (backward_operator : operator) (use_seed : bool) (sample : gmap string value)
    : M (gmap string value) :=
  let coil_dim := 0%nat in
  let* kspace := lift (get_tensor sample "kspace") in
  let* seed := lift (filename_seed use_seed sample) in
  let kspace_shape := tail_shape (shape kspace) in
  let* acs_mask := call_mask_func mask_func kspace_shape seed true in
  let kspace := tensor_mul acs_mask kspace in
  let acs_image := backward_operator None kspace in
  ret (<["body_coil_image" := VTensor (root_sum_of_squares coil_dim acs_image)]> sample).

(** ** EstimateSensitivityMap *)

Record EstimateSensitivityMap_t := mkEstimateSensitivityMap {
  es_kspace_key : string;
  es_backward_operator : operator;
  es_type_of_map : string;
  es_gaussian_sigma : option Q
}.

(** [EstimateSensitivityMap.__init__]: the type of map is checked here. *)
Definition EstimateSensitivityMap_init (kspace_key : string)
    (backward_operator : operator) (type_of_map : string) (gaussian_sigma : option Q)
    : result EstimateSensitivityMap_t :=
  if negb (str_in type_of_map ["unit"; "rss_estimate"])
  then Raise (ValueError "Expected type of map to be either `unit` or `rss_estimate`.")
  else Return (mkEstimateSensitivityMap kspace_key backward_operator type_of_map
                 gaussian_sigma).

(** The two warnings of [estimate_acs_image] are not fatal and leave no
    mark on the sample; only the indexing [shape[0]] they need is kept. *)
Definition estimate_acs_image (self : EstimateSensitivityMap_t)
    (sample : gmap string value) : result tensor :=
  rbind (get_tensor sample (es_kspace_key self)) (fun kspace_data =>
  rbind (match shape kspace_data with
         | [] => Raise (IndexError "tuple index out of range")
         | _ => Return tt
         end) (fun _ =>
  rbind
    (match es_gaussian_sigma self with
     | None =>
         rbind (get_tensor sample "acs_mask") (fun acs =>
         Return (tensor_mul kspace_data acs))
     | Some sigma =>
         if Qzero_b sigma
         then rbind (get_tensor sample "acs_mask") (fun acs =>
              Return (tensor_mul kspace_data acs))
         else rbind (gaussian_mask sigma kspace_data) (fun g =>
              rbind (get_tensor sample "acs_mask") (fun acs =>
              Return (tensor_mul (tensor_mul kspace_data acs) g)))
     end) (fun kspace_acs =>
  Return (es_backward_operator self None kspace_acs)))).

(** [sensitivity_map = zeros(shape); sensitivity_map[..., 0] = 1.0] *)
Definition unit_sensitivity_map (shp : list nat) : tensor :=
  let last_dim := List.last shp 1%nat in
  mkTensor shp
    (map (fun i => if (i mod last_dim =? 0)%nat then 1%Q else 0%Q)
         (seq 0 (prod shp))).

Definition EstimateSensitivityMap_call (self : EstimateSensitivityMap_t)
    (sample : gmap string value) : result (gmap string value) :=
  let coil_dim := 0%nat in
  if String.eqb (es_type_of_map self) "unit" then
    rbind (get_tensor sample (es_kspace_key self)) (fun kspace =>
    rbind (assert_complex kspace) (fun _ =>
    Return (<["sensitivity_map" := VTensor (unit_sensitivity_map (shape kspace))]> sample)))
  else if String.eqb (es_type_of_map self) "rss_estimate" then
    rbind (estimate_acs_image self sample) (fun acs_image =>
    let acs_image_rss := root_sum_of_squares coil_dim acs_image in
    rbind (unsqueeze 0 acs_image_rss) (fun r =>
    rbind (unsqueeze (-1) r) (fun acs_image_rss =>
    Return (<["sensitivity_map" := VTensor (safe_divide acs_image acs_image_rss)]> sample))))
  else Return sample.

(** ** DeleteKeys *)

Definition DeleteKeys_call (keys : list string) (sample : gmap string value)
    : gmap string value :=
  fold_left (fun s key => delete key s) keys sample.

(** ** ComputeScalingFactor *)

(** [int((1 - percentile) * n) + 1], computed on binary64 floats. *)
Definition percentile_rank (percentile : spec_float) (n : nat) : result Z :=
  rbind (f64_int (f64_mul (f64_sub f64_one percentile) (f64_of_Z (Z.of_nat n))))
        (fun i => Return (i + 1)).

(** A zero-dimensional tensor, as [torch.kthvalue] and [max] return. *)
Definition scalar_tensor (q : Q) : tensor := mkTensor [] [q].

Definition ComputeScalingFactor_call (normalize_key : option string)
    (percentile : option spec_float) (scaling_factor_key : string)
    (sample : gmap string value) : result (gmap string value) :=
  rbind
    (match normalize_key with
     | None => Return (VFloat 1)
     | Some nk =>
         if String.eqb nk "scaling_factor" then getitem sample "scaling_factor"
         else if String.eqb nk "" then Return (VFloat 1)
         else
           rbind (get_tensor sample nk) (fun t =>
           match percentile with
           | Some p =>
               if f64_truthy p then
                 let tview := map Qopp (data (modulus None t)) in
                 rbind (percentile_rank p (length tview)) (fun k =>
                 rbind (kthvalue tview k) (fun sf =>
                 Return (VTensor (scalar_tensor (- sf)%Q))))
               else rbind (tensor_max (data (modulus None t))) (fun sf =>
                    Return (VTensor (scalar_tensor sf)))
           | None =>
               rbind (tensor_max (data (modulus None t))) (fun sf =>
               Return (VTensor (scalar_tensor sf)))
           end)
     end) (fun scaling_factor =>
  Return (<[scaling_factor_key := scaling_factor]> sample)).

(** ** PadCoilDimension *)

Definition PadCoilDimension_call (num_coils : option Z) (key : string) (coil_dim : Z)
    (sample : gmap string value) : result (gmap string value) :=
  match num_coils with
  | None => Return sample
  | Some nc =>
      if nc =? 0 then Return sample
      else
        match sample !! key with
        | None => Return sample
        | Some dv =>
            rbind (as_tensor dv) (fun t =>
            match norm_index coil_dim (length (shape t)) with
            | None => Raise (IndexError "tuple index out of range")
            | Some d =>
                let curr_num_coils := default 0%nat (shape t !! d) in
                if nc <? Z.of_nat curr_num_coils then
                  rbind (getitem sample "filename") (fun _ =>
                  Raise (ValueError "Tried to pad to fewer coils than present."))
                else if Z.of_nat curr_num_coils =? nc then Return sample
                else
                  let padding_data_shape :=
                    <[d := Z.to_nat (Z.max (nc - Z.of_nat curr_num_coils) 0)]> (shape t) in
                  rbind (cat d (zeros padding_data_shape) t) (fun padded =>
                  Return (<[key := VTensor padded]> sample))
            end)
        end
  end.

(** ** Stages and Compose *)

Inductive stage :=
  | ToTensor
  | CropKspace (self : CropKspace_t)
  | ComputeZeroPadding (kspace_key padding_key : string) (eps : Q)
  | ApplyZeroPadding (kspace_key padding_key : string)
  | CreateSamplingMask (mask_func : mask_func_t) (shp : option (list (option nat)))
      (use_seed return_acs : bool)
  | EstimateSensitivityMap (self : EstimateSensitivityMap_t)
  | DeleteKeys (keys : list string)
  | ComputeImage (self : ComputeImage_t)
  | ApplyMask (sampling_mask_key input_kspace_key target_kspace_key : string)
  | EstimateBodyCoilImage (mask_func : mask_func_t) (backward_operator : operator)
      (use_seed : bool)
  | ComputeScalingFactor (normalize_key : option string)
      (percentile : option spec_float) (scaling_factor_key : string)
  | Normalize (scaling_factor_key : string) (keys_to_normalize : list string)
  | PadCoilDimension (pad_coils : option Z) (key : string) (coil_dim : Z).

(** [transform(sample)] *)
Definition stage_call (t : stage) (sample : gmap string value) : M (gmap string value) :=
  match t with
  | ToTensor => lift (ToTensor_call sample)
  | CropKspace self => CropKspace_call self sample
  | ComputeZeroPadding k p eps => lift (ComputeZeroPadding_call k p eps sample)
  | ApplyZeroPadding k p => lift (ApplyZeroPadding_call k p sample)
  | CreateSamplingMask f shp us ra => CreateSamplingMask_call f shp us ra sample
  | EstimateSensitivityMap self => lift (EstimateSensitivityMap_call self sample)
  | DeleteKeys keys => ret (DeleteKeys_call keys sample)
  | ComputeImage self => lift (ComputeImage_call self sample)
  | ApplyMask m i o => lift (ApplyMask_call m i o sample)
  | EstimateBodyCoilImage f b us => EstimateBodyCoilImage_call f b us sample
  | ComputeScalingFactor nk p sfk => lift (ComputeScalingFactor_call nk p sfk sample)
  | Normalize sfk keys => lift (Normalize_call sfk keys sample)
  | PadCoilDimension n key d => lift (PadCoilDimension_call n key d sample)
  end.

(** [Compose.__call__]: [for transform in self.transforms: sample = transform(sample)] *)
Fixpoint Compose_call (transforms : list stage) (sample : gmap string value)
    : M (gmap string value) :=
  match transforms with
  | [] => ret sample
  | transform :: rest =>
      let* sample := stage_call transform sample in Compose_call rest sample
  end.

(** ** build_mri_transforms *)

Record build_config := mkBuildConfig {
  forward_operator : operator;
  backward_operator : operator;
  mask_func : option mask_func_t;
  crop : option crop_obj;
  crop_type : option string;
  image_center_crop : bool;
  padding_eps : Q;
  estimate_sensitivity_maps : bool;
  estimate_body_coil_image : bool;
  sensitivity_maps_gaussian : option Q;
  delete_acs_mask : bool;
  delete_kspace : bool;
  image_recon_type : string;
  pad_coils : option Z;
  scaling_key : option string;
  scale_percentile : option spec_float;
  use_seed : bool
}.

(** Truth value of the [crop] argument in [if crop:]. *)
Definition crop_truthy (c : option crop_obj) : bool :=
  match c with
  | None => false
  | Some (CropKey key) => negb (String.eqb key "")
  | Some (CropShape sizes) => negb (Nat.eqb (length sizes) 0)
  | Some (CropScalar n) => negb (n =? 0)
  end.

(** [None if isinstance(crop, str) else crop], as [CreateSamplingMask]
    reads it: the only number that reaches it is the falsy [0] (any other
    number made [CropKspace] fail before), and [not 0] sends the stage to
    the same branch as [None]. *)
Definition mask_shape_of_crop (c : option crop_obj) : option (list (option nat)) :=
  match c with
  | Some (CropShape sizes) => Some sizes
  | _ => None
  end.

Definition build_mri_transforms (cfg : build_config) : result (list stage) :=
  let mri_transforms := [ToTensor] in
  rbind
    (match crop cfg with
     | Some c =>
         if crop_truthy (crop cfg) then
           rbind (CropKspace_init c (forward_operator cfg) (backward_operator cfg)
                    (image_center_crop cfg) (crop_type cfg) (use_seed cfg) None)
                 (fun ck => Return (mri_transforms ++ [CropKspace ck]))
         else Return mri_transforms
     | None => Return mri_transforms
     end) (fun mri_transforms =>
  let mri_transforms :=
    match mask_func cfg with
    | Some f =>
        mri_transforms ++
        [ComputeZeroPadding "kspace" "padding" (padding_eps cfg);
         ApplyZeroPadding "kspace" "padding";
         CreateSamplingMask f (mask_shape_of_crop (crop cfg)) (use_seed cfg)
           (estimate_sensitivity_maps cfg)]
    | None => mri_transforms
    end in
  rbind (EstimateSensitivityMap_init "kspace" (backward_operator cfg)
           (if negb (estimate_sensitivity_maps cfg) then "unit" else "rss_estimate")
           (sensitivity_maps_gaussian cfg)) (fun es =>
  let mri_transforms := mri_transforms ++ [EstimateSensitivityMap es] in
  let mri_transforms :=
    if delete_acs_mask cfg then mri_transforms ++ [DeleteKeys ["acs_mask"]]
    else mri_transforms in
  rbind (ComputeImage_init "kspace" "target" (backward_operator cfg)
           (image_recon_type cfg)) (fun ci =>
  let mri_transforms :=
    mri_transforms ++
    [ComputeImage ci; ApplyMask "sampling_mask" "kspace" "masked_kspace"] in
  let mri_transforms :=
    match mask_func cfg with
    | Some f =>
        if estimate_body_coil_image cfg
        then mri_transforms ++
             [EstimateBodyCoilImage f (backward_operator cfg) (use_seed cfg)]
        else mri_transforms
    | None => mri_transforms
    end in
  let mri_transforms :=
    mri_transforms ++
    [ComputeScalingFactor (scaling_key cfg) (scale_percentile cfg) "scaling_factor";
     Normalize "scaling_factor" default_keys_to_normalize;
     PadCoilDimension (pad_coils cfg) "masked_kspace" 0;
     PadCoilDimension (pad_coils cfg) "sensitivity_map" 0] in
  let mri_transforms :=
    if delete_kspace cfg then mri_transforms ++ [DeleteKeys ["kspace"]]
    else mri_transforms in
  Return mri_transforms))).

(** The pipeline object applied to a sample: build, then [Compose.__call__]. *)
Definition run_pipeline (cfg : build_config) (sample : gmap string value)
    : M (gmap string value) :=
  let* transforms := lift (build_mri_transforms cfg) in
  Compose_call transforms sample.

(** [ToTensor()]: the class defines no [__init__]; construction takes no
    configuration and cannot fail. *)
Definition ToTensor_init : result stage := Return ToTensor.

(** ** The stage order as the specification words it *)

Inductive stage_kind :=
  | Materialize
  | CropKspaceStage
  | DetectPadding
  | ApplyPadding
  | CreateMask
  | EstimateSensitivity
  | DeleteOf (keys : list string)
  | ComputeTarget
  | MaskKspace
  | EstimateBodyCoil
  | ComputeScaling
  | NormalizeFields
  | PadCoils (key : string).

Definition kind_of (t : stage) : stage_kind :=
  match t with
  | ToTensor => Materialize
  | CropKspace _ => CropKspaceStage
  | ComputeZeroPadding _ _ _ => DetectPadding
  | ApplyZeroPadding _ _ => ApplyPadding
  | CreateSamplingMask _ _ _ _ => CreateMask
  | EstimateSensitivityMap _ => EstimateSensitivity
  | DeleteKeys keys => DeleteOf keys
  | ComputeImage _ => ComputeTarget
  | ApplyMask _ _ _ => MaskKspace
  | EstimateBodyCoilImage _ _ _ => EstimateBodyCoil
  | ComputeScalingFactor _ _ _ => ComputeScaling
  | Normalize _ _ => NormalizeFields
  | PadCoilDimension _ key _ => PadCoils key
  end.

Definition when {A} (b : bool) (l : list A) : list A := if b then l else [].

Definition is_some {A} (o : option A) : bool := negb (is_none o).

(** The canonical order with the body-coil stage present under the
    condition [body_coil]. *)
Definition stage_kinds_with (body_coil : bool) (cfg : build_config) : list stage_kind :=
  [Materialize]
  ++ when (crop_truthy (crop cfg)) [CropKspaceStage]
  ++ when (is_some (mask_func cfg)) [DetectPadding; ApplyPadding; CreateMask]
  ++ [EstimateSensitivity]
  ++ when (delete_acs_mask cfg) [DeleteOf ["acs_mask"]]
  ++ [ComputeTarget; MaskKspace]
  ++ when body_coil [EstimateBodyCoil]
  ++ [ComputeScaling; NormalizeFields; PadCoils "masked_kspace"; PadCoils "sensitivity_map"]
  ++ when (delete_kspace cfg) [DeleteOf ["kspace"]].

(** As the specification has it: body-coil estimation if the flag is set. *)
Definition spec_stage_kinds (cfg : build_config) : list stage_kind :=
  stage_kinds_with (estimate_body_coil_image cfg) cfg.

(** As the builder has it: the flag, and a mask function to estimate with. *)
Definition built_stage_kinds (cfg : build_config) : list stage_kind :=
  stage_kinds_with (estimate_body_coil_image cfg && is_some (mask_func cfg)) cfg.

(** The stages with their parameters. *)
Definition canonical_stages (cfg : build_config) : list stage :=
  [ToTensor]
  ++ match crop cfg with
     | Some c =>
         when (crop_truthy (crop cfg))
           [CropKspace (mkCropKspace c (forward_operator cfg) (backward_operator cfg)
                          (image_center_crop cfg) (crop_type cfg) (use_seed cfg) None)]
     | None => []
     end
  ++ match mask_func cfg with
     | Some f =>
         [ComputeZeroPadding "kspace" "padding" (padding_eps cfg);
          ApplyZeroPadding "kspace" "padding";
          CreateSamplingMask f (mask_shape_of_crop (crop cfg)) (use_seed cfg)
            (estimate_sensitivity_maps cfg)]
     | None => []
     end
  ++ [EstimateSensitivityMap
        (mkEstimateSensitivityMap "kspace" (backward_operator cfg)
           (if estimate_sensitivity_maps cfg then "rss_estimate" else "unit")
           (sensitivity_maps_gaussian cfg))]
  ++ when (delete_acs_mask cfg) [DeleteKeys ["acs_mask"]]
  ++ [ComputeImage (mkComputeImage "kspace" "target" (backward_operator cfg)
                      (image_recon_type cfg));
      ApplyMask "sampling_mask" "kspace" "masked_kspace"]
  ++ match mask_func cfg with
     | Some f =>
         when (estimate_body_coil_image cfg)
           [EstimateBodyCoilImage f (backward_operator cfg) (use_seed cfg)]
     | None => []
     end
  ++ [ComputeScalingFactor (scaling_key cfg) (scale_percentile cfg) "scaling_factor";
      Normalize "scaling_factor" default_keys_to_normalize;
      PadCoilDimension (pad_coils cfg) "masked_kspace" 0;
      PadCoilDimension (pad_coils cfg) "sensitivity_map" 0]
  ++ when (delete_kspace cfg) [DeleteKeys ["kspace"]].

(** A truthy [crop] that is neither a key nor a sequence. *)
Definition crop_malformed (c : option crop_obj) : bool :=
  match c with
  | Some (CropScalar n) => negb (n =? 0)
  | _ => false
  end.

(** One step of the pipeline on the outcome so far. *)
Definition feed (acc : result (gmap string value * world)) (t : stage)
    : result (gmap string value * world) :=
  match acc with
  | Return (sample, w) => stage_call t sample w
  | Raise e => Raise e
  end.

(** ** RenameKeys *)

(** [for old_key, new_key in zip(old_keys, new_keys):
       if old_key in sample: sample[new_key] = sample.pop(old_key)] *)
Definition RenameKeys_call (old_keys new_keys : list string)
    (sample : gmap string value) : gmap string value :=
  fold_left
    (fun s p =>
       match s !! fst p with
       | Some v => <[snd p := v]> (delete (fst p) s)
       | None => s
       end)
    (zip old_keys new_keys) sample.

(** ** The fields a stage reads, writes and removes *)

(** Fields a call may add to the sample. *)
Definition stage_creates (t : stage) : list string :=
  match t with
  | ComputeZeroPadding _ padding_key _ => [padding_key]
  | CreateSamplingMask _ _ _ return_acs =>
      "sampling_mask" :: when return_acs ["acs_mask"]
  | EstimateSensitivityMap _ => ["sensitivity_map"]
  | ComputeImage self => [ci_target_key self]
  | ApplyMask _ _ target_kspace_key => [target_kspace_key]
  | EstimateBodyCoilImage _ _ _ => ["body_coil_image"]
  | ComputeScalingFactor _ _ scaling_factor_key => [scaling_factor_key]
  | Normalize _ _ => ["scaling_diff"]
  | _ => []
  end.

(** Fields a call removes. *)
Definition stage_deletes (t : stage) : list string :=
  match t with
  | DeleteKeys keys => keys
  | _ => []
  end.

(** Fields the sample holds whenever the call returns. *)
Definition stage_ensures (t : stage) : list string :=
  match t with
  | ToTensor => ["kspace"]
  | CropKspace _ => ["kspace"]
  | ComputeZeroPadding kspace_key padding_key _ => [padding_key; kspace_key]
  | ApplyZeroPadding kspace_key padding_key => [kspace_key; padding_key]
  | CreateSamplingMask _ _ _ return_acs =>
      "sampling_mask" :: when return_acs ["acs_mask"; "kspace"]
  | EstimateSensitivityMap self =>
      when (str_in (es_type_of_map self) ["unit"; "rss_estimate"])
        ["sensitivity_map"]
  | DeleteKeys _ => []
  | ComputeImage self => [ci_target_key self]
  | ApplyMask _ _ target_kspace_key => [target_kspace_key]
  | EstimateBodyCoilImage _ _ _ => ["body_coil_image"; "kspace"]
  | ComputeScalingFactor _ _ scaling_factor_key => [scaling_factor_key]
  | Normalize _ _ => []
  | PadCoilDimension _ _ _ => []
  end.

(** Fields without which the call raises. *)
Definition stage_requires (t : stage) : list string :=
  match t with
  | ToTensor => ["kspace"]
  | CropKspace self =>
      "kspace" ::
      match ck_crop self with CropKey key => [key] | _ => [] end
  | ComputeZeroPadding kspace_key _ _ => [kspace_key]
  | ApplyZeroPadding kspace_key padding_key => [kspace_key; padding_key]
  | CreateSamplingMask _ _ use_seed return_acs =>
      when use_seed ["filename"] ++ when return_acs ["kspace"]
  | EstimateSensitivityMap self =>
      if String.eqb (es_type_of_map self) "unit" then [es_kspace_key self]
      else if String.eqb (es_type_of_map self) "rss_estimate"
           then [es_kspace_key self; "acs_mask"]
           else []
  | DeleteKeys _ => []
  | ComputeImage self => [ci_kspace_key self]
  | ApplyMask sampling_mask_key input_kspace_key _ =>
      [input_kspace_key; sampling_mask_key]
  | EstimateBodyCoilImage _ _ use_seed => "kspace" :: when use_seed ["filename"]
  | ComputeScalingFactor normalize_key _ _ =>
      match normalize_key with
      | Some nk => when (negb (String.eqb nk "")) [nk]
      | None => []
      end
  | Normalize _ _ => []
  | PadCoilDimension _ _ _ => []
  end.

(** The three analyses of a stage list for one field [k], from the tables
    above.  [flow_absent k l d]: the field is absent after [l] (given that
    [d] tells it absent before).  [flow_present k l d]: it is present after
    [l].  [flow_blocked k l]: [l] cannot return when started without it. *)
Fixpoint flow_absent (k : string) (l : list stage) (d : bool) : bool :=
  match l with
  | [] => d
  | t :: rest =>
      flow_absent k rest
        (if str_in k (stage_deletes t) then true
         else if str_in k (stage_creates t) then false
         else d)
  end.

Fixpoint flow_present (k : string) (l : list stage) (d : bool) : bool :=
  match l with
  | [] => d
  | t :: rest =>
      flow_present k rest
        (if str_in k (stage_deletes t) then false
         else if str_in k (stage_ensures t) then true
         else d)
  end.

Fixpoint flow_blocked (k : string) (l : list stage) : bool :=
  match l with
  | [] => false
  | t :: rest =>
      if str_in k (stage_requires t) then true
      else if str_in k (stage_creates t) then false
      else flow_blocked k rest
  end.
End Stages.

(** ** A small implementation of the collaborators

    Used to run the stages on concrete samples.  Complex tensors keep the
    real and imaginary parts on the last axis; the square root is exact on
    squares of rationals, which is all the examples need. *)
Module Reference.

Definition Qsqrt (q : Q) : Q :=
  let r := Qred q in Qmake (Z.sqrt (Qnum r)) (Pos.sqrt (Qden r)).

Definition Qnth (i : nat) (l : list Q) : Q := default 0%Q (l !! i).

Fixpoint pairs (l : list Q) : list (Q * Q) :=
  match l with
  | re :: im :: rest => (re, im) :: pairs rest
  | _ => []
  end.

Definition unpairs (l : list (Q * Q)) : list Q :=
  concat (map (fun p => [fst p; snd p]) l).

(** Broadcasting of two shapes, aligned on the right. *)
Definition pad_shape (n : nat) (s : list nat) : list nat :=
  repeat 1%nat (n - length s) ++ s.

Definition bshape (a b : list nat) : list nat :=
  let n := Nat.max (length a) (length b) in
  zip_with Nat.max (pad_shape n a) (pad_shape n b).

Fixpoint unravel (shp : list nat) (i : nat) : list nat :=
  match shp with
  | [] => []
  | d :: rest => ((i / prod rest) mod d)%nat :: unravel rest i
  end.

Fixpoint ravel (shp idx : list nat) : nat :=
  match shp, idx with
  | d :: rest, j :: js => ((if (d =? 1)%nat then 0 else j) * prod rest + ravel rest js)%nat
  | _, _ => 0%nat
  end.

Definition broadcast2 (f : Q -> Q -> Q) (a b : tensor) : tensor :=
  let s := bshape (shape a) (shape b) in
  let pa := pad_shape (length s) (shape a) in
  let pb := pad_shape (length s) (shape b) in
  mkTensor s
    (map (fun i => let idx := unravel s i in
                   f (Qnth (ravel pa idx) (data a)) (Qnth (ravel pb idx) (data b)))
         (seq 0 (prod s))).

Definition sum_dim (dim : nat) (t : tensor) : tensor :=
  let n := default 0%nat (shape t !! dim) in
  let rest := take dim (shape t) ++ drop (S dim) (shape t) in
  mkTensor rest
    (fold_right (zip_with Qplus) (repeat 0%Q (prod rest))
       (map (fun j => select dim j t) (seq 0 n))).

Definition complex_modulus (t : tensor) : tensor :=
  mkTensor (removelast (shape t))
    (map (fun p => Qsqrt (fst p * fst p + snd p * snd p)) (pairs (data t))).

Definition rss (dim : nat) (t : tensor) : tensor :=
  let squares := mkTensor (shape t) (map (fun x => x * x)%Q (data t)) in
  let s := sum_dim dim squares in
  mkTensor (removelast (shape s))
    (map (fun p => Qsqrt (fst p + snd p)) (pairs (data s))).

Definition cmul (a b : tensor) : tensor :=
  mkTensor (shape a)
    (unpairs (zip_with (fun x y => (fst x * fst y - snd x * snd y,
                                    fst x * snd y + snd x * fst y)%Q)
                       (pairs (data a)) (pairs (data b)))).

Definition conj (a : tensor) : tensor :=
  mkTensor (shape a) (unpairs (map (fun x => (fst x, - snd x)%Q) (pairs (data a)))).

(** The sub-box of a tensor starting at [starts] with extent [sizes]. *)
Fixpoint crop_box (shp starts sizes : list nat) (l : list Q) : list Q :=
  match shp, starts, sizes with
  | _ :: rest, s :: ss, n :: ns =>
      concat (map (fun i => crop_box rest ss ns (slice ((s + i) * prod rest) (prod rest) l))
                  (seq 0 n))
  | _, _, _ => l
  end.

(** Crop extents from axis 1 on; a missing or zero entry keeps the axis. *)
Definition crop_sizes (image_shape : list nat) (crop_shape : list (option nat)) : list nat :=
  match image_shape with
  | [] => []
  | d0 :: dims =>
      d0 :: zip_with (fun d c => match c with Some (S n) => S n | _ => d end)
              dims (crop_shape ++ repeat None (length dims - length crop_shape))
  end.

Definition crop_with (starts : list nat) (crop_shape : list (option nat)) (image : tensor)
    : tensor :=
  let sizes := crop_sizes (shape image) crop_shape in
  mkTensor sizes (crop_box (shape image) starts sizes (data image)).

Definition center_crop (image : tensor) (crop_shape : list (option nat)) : tensor :=
  let sizes := crop_sizes (shape image) crop_shape in
  crop_with (zip_with (fun d n => ((d - n) / 2)%nat) (shape image) sizes) crop_shape image.

Definition draw_offsets (sampler : option string) (sigma : option (list Q))
    (seed : option seed_t) (image_shape : list nat) (crop_shape : list (option nat))
    (g : N) : list nat * N :=
  let sizes := crop_sizes image_shape crop_shape in
  let base := match seed with
              | Some s => fold_right Nat.add 0%nat s
              | None => N.to_nat g
              end in
  (zip_with (fun d n => (base mod S (d - n))%nat) image_shape sizes,
   match seed with Some _ => g | None => N.succ g end).

#[export] Instance reference_ops : TransformOps := {|
  to_tensor a :=
    if is_complex a then mkTensor (nshape a ++ [2%nat]) (unpairs (ndata a))
    else mkTensor (nshape a) (map fst (ndata a));
  from_numpy a := mkTensor (nshape a) (map fst (ndata a));
  to_byte t := t;
  py_str _ := "";
  apply_padding d p := broadcast2 (fun x y => x * (1 - y))%Q d p;
  apply_mask k m := (broadcast2 Qmult k m, m);
  complex_center_crop := center_crop;
  random_crop_offsets := draw_offsets;
  crop_at := crop_with;
  modulus _ := complex_modulus;
  root_sum_of_squares := rss;
  complex_multiplication := cmul;
  conjugate := conj;
  safe_divide := broadcast2 (fun x y => if Qzero_b y then 0 else x / y)%Q;
  tensor_sum := sum_dim;
  tensor_mul := broadcast2 Qmult;
  gaussian_mask _ _ := Raise (RuntimeError "exp is not available in exact rationals");
  assert_complex t :=
    if (List.last (shape t) 0 =? 2)%nat then Return tt
    else Raise (ValueError "Complex dimension assumed to be 2")
|}.

(** The identity as Fourier operator and a generator of all-ones masks of
    shape (1, ..spatial.., 1). *)
Definition id_operator : operator := fun _ t => t.

Definition ones_mask : mask_func_t :=
  fun shp seed return_acs g =>
    let s := 1%nat :: removelast shp ++ [1%nat] in
    (mkTensor s (repeat 1%Q (prod s)),
     match seed with Some _ => g | None => N.succ g end).

End Reference.

(** ** Concrete samples and configurations *)
Module Examples.
Import Reference.

(** A complex array holding [1, 2, ..., n] (imaginary parts zero). *)
Definition ramp (n : nat) : list (Q * Q) :=
  map (fun i => (inject_Z (Z.of_nat i), 0%Q)) (seq 1 n).

(** One coil, 4 x 4, from the file "f". *)
Definition sample_4x4 : gmap string value :=
  <["kspace" := VArray (mkNdarray [1; 4; 4]%nat true (ramp 16))]>
    (<["filename" := VStr "f"]> ∅).

(** A k-space array without spatial axes enough: 4 coils of 4 samples. *)
Definition sample_flat : gmap string value :=
  <["kspace" := VArray (mkNdarray [4; 4]%nat true (ramp 16))]>
    (<["filename" := VStr "f"]> ∅).

(** The binary64 numbers nearest to 0.99 and 0.9, and 0.75 (exact). *)
Definition f64_099 : spec_float := S754_finite false 8917127262193582 (-53).
Definition f64_09 : spec_float := S754_finite false 8106479329266893 (-53).
Definition f64_075 : spec_float := S754_finite false 6755399441055744 (-53).

Definition world0 : world := mkWorld 0 [].

(** The defaults of [build_mri_transforms], with identity operators. *)
Definition default_config (mask : option mask_func_t) (crop : option crop_obj)
    (body_coil : bool) : build_config :=
  mkBuildConfig id_operator id_operator mask crop (Some "uniform") true (1 # 10000)
    true body_coil None true true "rss" None (Some "masked_kspace") (Some f64_099) true.

(** Crop to 2 x 2, masks generated. *)
Definition config_crop : build_config :=
  default_config (Some ones_mask) (Some (CropShape [Some 2%nat; Some 2%nat])) false.

(** Body-coil estimation requested, no mask function. *)
Definition config_body_coil_no_mask : build_config :=
  default_config None None true.

(** A number as crop. *)
Definition config_bad_crop : build_config :=
  default_config None (Some (CropScalar 5)) false.

(** Two slices of one file with the same shape: nothing padded in the
    first, the first location padded in the second. *)
Definition slice_kspace : tensor :=
  mkTensor [1; 2; 2; 2]%nat [1; 0; 2; 0; 3; 0; 4; 0]%Q.

Definition sample_unpadded : gmap string value :=
  <["padding" := VTensor (mkTensor [1; 2; 2; 1]%nat [0; 0; 0; 0]%Q)]>
    (<["kspace" := VTensor slice_kspace]> (<["filename" := VStr "f"]> ∅)).

Definition sample_padded : gmap string value :=
  <["padding" := VTensor (mkTensor [1; 2; 2; 1]%nat [1; 0; 0; 0]%Q)]>
    (<["kspace" := VTensor slice_kspace]> (<["filename" := VStr "f"]> ∅)).

Definition sample_no_padding : gmap string value :=
  <["kspace" := VTensor slice_kspace]> (<["filename" := VStr "f"]> ∅).

(** Two coils of one complex value each. *)
Definition two_coils : tensor := mkTensor [2; 1; 1; 2]%nat [3; 4; 1; 0]%Q.

Definition sample_two_coils : gmap string value :=
  <["masked_kspace" := VTensor two_coils]>
    (<["kspace" := VTensor two_coils]> (<["filename" := VStr "f"]> ∅)).

Definition sample_with_map : gmap string value :=
  <["sensitivity_map" := VTensor (mkTensor [2; 1; 1; 2]%nat [1; 0; 0; 1]%Q)]>
    sample_two_coils.

(** Magnitudes 1, 2, 3, 4. *)
Definition sample_magnitudes : gmap string value :=
  <["masked_kspace" := VTensor (mkTensor [4; 2]%nat [1; 0; 2; 0; 3; 0; 4; 0]%Q)]> ∅.

(** Samples with a scaling factor of zero and of two. *)
Definition sample_factor_zero : gmap string value :=
  <["scaling_factor" := VFloat 0]> (<["target" := VFloat 4]> ∅).

Definition sample_factor_two : gmap string value :=
  <["scaling_factor" := VFloat 2]> (<["target" := VFloat 4]> ∅).

End Examples.
(** *** Properties of [Normalize] *)

Lemma str_in_elem (k : string) (l : list string) : str_in k l = true <-> k ∈ l.
Proof.
  unfold str_in. rewrite existsb_exists. split.
  - intros [x [Hin Heq]]. apply String.eqb_eq in Heq. subst.
    by apply list_elem_of_In.
  - intros Hin. exists k. split; [by apply list_elem_of_In | apply String.eqb_refl].
Qed.

Lemma normalize_loop_spec (allow : list string) (d : Q) (ks : list string) :
  forall m : gmap string value,
    NoDup ks ->
    (forall k, k ∈ ks -> str_in k allow = true ->
       exists v v', m !! k = Some v /\ value_div v d = Return v') ->
    exists m' : gmap string value,
      normalize_loop allow d ks m = Return m' /\
      forall k, m' !! k =
        (if bool_decide (k ∈ ks) && str_in k allow
         then div_or_keep d <$> m !! k else m !! k).
Proof.
  induction ks as [|key rest IH]; intros m Hnd Hdiv.
  - exists m. split; [reflexivity|]. intros k.
    rewrite bool_decide_eq_false_2; [done | by apply not_elem_of_nil].
  - apply NoDup_cons in Hnd as [Hnotin Hnd]. simpl.
    destruct (str_in key allow) eqn:Hallow; simpl.
    + destruct (Hdiv key) as (v & v' & Hv & Hv'); [by left | done |].
      unfold getitem. rewrite Hv. simpl. rewrite Hv'. simpl.
      destruct (IH (<[key := v']> m) Hnd) as (m' & Hrun & Hm').
      { intros k Hk Hka. destruct (Hdiv k) as (w & w' & Hw & Hw');
          [by right | done |].
        exists w, w'. split; [|done].
        rewrite lookup_insert_ne; [done | intros ->; contradiction]. }
      exists m'. split; [done|]. intros k. rewrite Hm'.
      destruct (decide (k = key)) as [->|Hne].
      * rewrite (bool_decide_eq_false_2 _ Hnotin).
        rewrite bool_decide_eq_true_2 by (by left). simpl.
        rewrite Hallow, lookup_insert_eq, Hv. simpl.
        unfold div_or_keep. by rewrite Hv'.
      * rewrite lookup_insert_ne by done.
        destruct (decide (k ∈ rest)) as [Hin|Hout].
        -- rewrite !bool_decide_eq_true_2; [done | by right | done].
        -- rewrite !bool_decide_eq_false_2; [done | | done].
           intros Hin. apply elem_of_cons in Hin as [?|?]; contradiction.
    + destruct (IH m Hnd) as (m' & Hrun & Hm').
      { intros k Hk Hka. apply Hdiv; [by right | done]. }
      exists m'. split; [done|]. intros k. rewrite Hm'.
      destruct (decide (k = key)) as [->|Hne].
      * rewrite Hallow. by rewrite !andb_false_r.
      * destruct (decide (k ∈ rest)) as [Hin|Hout].
        -- rewrite !bool_decide_eq_true_2; [done | by right | done].
        -- rewrite !bool_decide_eq_false_2; [done | | done].
           intros Hin. apply elem_of_cons in Hin as [?|?]; contradiction.
Qed.

Lemma sample_keys_spec (sample : gmap string value) :
  NoDup (map fst (map_to_list sample)) /\
  forall k, k ∈ map fst (map_to_list sample) <-> is_Some (sample !! k).
Proof.
  split.
  - apply (NoDup_fst_map_to_list sample).
  - intros k. rewrite list_elem_of_fmap. split.
    + intros [[k' v] [-> Hin]]. apply elem_of_map_to_list in Hin. by exists v.
    + intros [v Hv]. exists (k, v). split; [done|]. by apply elem_of_map_to_list.
Qed.

Lemma truthy_scalar_nonzero (v : value) (d : Q) :
  truthy v = Return true -> as_scalar v = Return d -> ~ (d == 0)%Q.
Proof.
  assert (Hnz : forall q, negb (Qzero_b q) = true -> ~ (q == 0)%Q).
  { intros q Ht Hz. apply negb_true_iff in Ht. unfold Qzero_b in Ht.
    apply Qeq_bool_iff in Hz. congruence. }
  destruct v as [| q | | | a | t]; cbn [truthy as_scalar]; try discriminate.
  - intros Ht Hs. injection Hs as <-. injection Ht as Ht. by apply Hnz.
  - destruct (ndata a) as [|x [|y l]]; try discriminate.
    destruct (is_complex a); [discriminate|].
    intros Ht Hs. injection Hs as <-. injection Ht as Ht.
    cbn [negb orb] in Ht. rewrite andb_true_r in Ht. by apply Hnz.
  - destruct (data t) as [|x [|y l]]; try discriminate.
    intros Ht Hs. injection Hs as <-. injection Ht as Ht. by apply Hnz.
Qed.

(** C4.  [Normalize] never divides by zero.  When the scaling-factor key is
    absent, or its value is falsy (zero), the sample comes back unchanged:
    no field is divided and no [scaling_diff] is written.  When the factor
    is present and true, it is not zero, every allow-listed field present
    in the sample is divided by it, every other field is kept, and
    [scaling_diff] is set to zero. *)
Theorem Normalize_guards_division
    (scaling_factor_key : string) (keys_to_normalize : list string)
    (sample : gmap string value) :
  ((sample !! scaling_factor_key = None \/
    exists v, sample !! scaling_factor_key = Some v /\ truthy v = Return false) ->
   Normalize_call scaling_factor_key keys_to_normalize sample = Return sample) /\
  (forall v d,
     sample !! scaling_factor_key = Some v ->
     truthy v = Return true -> as_scalar v = Return d ->
     ~ (d == 0)%Q /\
     ((forall k w, str_in k keys_to_normalize = true -> sample !! k = Some w ->
                   exists w', value_div w d = Return w') ->
      exists sample' : gmap string value,
        Normalize_call scaling_factor_key keys_to_normalize sample = Return sample' /\
        sample' !! "scaling_diff" = Some (VFloat 0) /\
        forall k, k <> "scaling_diff" ->
          (str_in k keys_to_normalize = false -> sample' !! k = sample !! k) /\
          (sample !! k = None -> sample' !! k = None) /\
          (forall w, str_in k keys_to_normalize = true -> sample !! k = Some w ->
             exists w', value_div w d = Return w' /\ sample' !! k = Some w'))).
Proof.
  split.
  - unfold Normalize_call. intros [Hnone | (v & Hv & Hf)].
    + rewrite Hnone. reflexivity.
    + rewrite Hv. simpl. rewrite Hf. reflexivity.
  - intros v d Hv Ht Hs. split; [by eapply truthy_scalar_nonzero|].
    intros Hdiv. unfold Normalize_call. rewrite Hv. simpl. rewrite Ht. simpl.
    rewrite Hs. simpl.
    destruct (sample_keys_spec sample) as [Hnd Hkeys].
    destruct (normalize_loop_spec keys_to_normalize d
                (map fst (map_to_list sample)) sample Hnd) as (m' & Hrun & Hm').
    { intros k Hk Hka. apply Hkeys in Hk as [w Hw].
      destruct (Hdiv k w Hka Hw) as [w' Hw']. by exists w, w'. }
    rewrite Hrun. simpl. eexists. split; [reflexivity|].
    split; [apply lookup_insert_eq|].
    intros k Hne. rewrite lookup_insert_ne by done. rewrite Hm'.
    repeat split.
    + intros ->. by rewrite andb_false_r.
    + intros ->. by destruct (_ && _).
    + intros w Hka Hw. destruct (Hdiv k w Hka Hw) as [w' Hw'].
      exists w'. split; [done|].
      rewrite bool_decide_eq_true_2 by (apply Hkeys; by exists w).
      rewrite Hka, Hw. simpl. unfold div_or_keep. by rewrite Hw'.
Qed.

(** *** Properties of [ComputeImage] *)

Section ComputeImageProps.
Context `{ops : TransformOps}.

Variables (kspace_key target_key : string) (backward : operator).

Lemma get_tensor_Some (sample : gmap string value) key t :
  sample !! key = Some (VTensor t) -> get_tensor sample key = Return t.
Proof. intros H. unfold get_tensor, getitem. by rewrite H. Qed.

Lemma str_in_other (t : string) (l : list string) :
  Forall (fun s => t <> s) l -> str_in t l = false.
Proof.
  induction 1 as [|s l Hs _ IH]; [reflexivity|].
  unfold str_in in *. simpl. rewrite IH, orb_false_r. by apply String.eqb_neq.
Qed.

Local Abbreviation stage_of t :=
  (mkComputeImage kspace_key target_key backward t) (only parsing).

(** C5.  On a sample that holds a tensor under the configured k-space key,
    [ComputeImage] back-projects it with the backward operator over the
    spatial axes and writes under the target key: the sum over the coil
    axis for [complex]; the modulus of that sum for [complex_mod]; the
    root-sum-of-squares over the coil axis for [rss]; and, the sensitivity
    map being present, the coil sum of the conjugated sensitivity map
    times the image for [sense], and its modulus for [sense_mod]. *)
Theorem ComputeImage_combinations (sample : gmap string value) (kspace : tensor) :
  sample !! kspace_key = Some (VTensor kspace) ->
  let image := backward (Some [1; 2]) kspace in
  let write (t : tensor) := Return (<[target_key := VTensor t]> sample) in
  ComputeImage_call (stage_of "complex") sample = write (tensor_sum 0 image) /\
  ComputeImage_call (stage_of "complex_mod") sample
    = write (modulus (Some (-1)) (tensor_sum 0 image)) /\
  ComputeImage_call (stage_of "rss") sample
    = write (root_sum_of_squares 0 image) /\
  forall sensitivity_map : tensor,
    sample !! "sensitivity_map" = Some (VTensor sensitivity_map) ->
    let sense :=
      tensor_sum 0 (complex_multiplication (conjugate sensitivity_map) image) in
    ComputeImage_call (stage_of "sense") sample = write sense /\
    ComputeImage_call (stage_of "sense_mod") sample
      = write (modulus (Some (-1)) sense).
Proof.
  intros Hk image write. unfold ComputeImage_call. simpl.
  rewrite (get_tensor_Some _ _ _ Hk). simpl.
  split; [reflexivity|]. split; [|split; [reflexivity|]].
  - rewrite (get_tensor_Some _ target_key (tensor_sum 0 image))
      by apply lookup_insert_eq.
    simpl. unfold write. by rewrite insert_insert_eq.
  - intros sensitivity_map Hs. rewrite Hs. simpl. split; [reflexivity|].
    rewrite (get_tensor_Some _ target_key _ (lookup_insert_eq _ _ _)).
    simpl. unfold write. by rewrite insert_insert_eq.
Qed.

(** C6.  With reconstruction type [sense] or [sense_mod], a sample without
    the [sensitivity_map] key makes [ComputeImage] raise: the missing-item
    error when the sample has its k-space tensor, and the [KeyError] of the
    k-space key when that is missing too.  A sample that has the
    [sensitivity_map] key never makes the stage raise the missing-item
    error, whatever the type. *)
Theorem ComputeImage_sense_needs_map (sample : gmap string value) :
  (forall (kspace : tensor) (t : string),
     t = "sense" \/ t = "sense_mod" ->
     sample !! kspace_key = Some (VTensor kspace) ->
     sample !! "sensitivity_map" = None ->
     ComputeImage_call (stage_of t) sample
       = Raise (ItemNotFoundException "sensitivity map"
                  "Sensitivity map is required for SENSE reconstruction.")) /\
  (forall t : string,
     sample !! kspace_key = None ->
     ComputeImage_call (stage_of t) sample = Raise (KeyError kspace_key)) /\
  (forall (t item msg : string),
     is_Some (sample !! "sensitivity_map") ->
     ComputeImage_call (stage_of t) sample
       <> Raise (ItemNotFoundException item msg)).
Proof.
  split; [|split].
  - intros kspace t Ht Hk Hnone. unfold ComputeImage_call. simpl.
    rewrite (get_tensor_Some _ _ _ Hk). simpl.
    destruct Ht as [-> | ->]; simpl; by rewrite Hnone.
  - intros t Hnone. unfold ComputeImage_call, get_tensor, getitem. simpl.
    by rewrite Hnone.
  - intros t item msg [sv Hsv]. unfold ComputeImage_call. simpl.
    unfold get_tensor at 1, getitem.
    destruct (sample !! kspace_key) as [kv|]; [|discriminate]. simpl.
    destruct kv; try discriminate. simpl.
    destruct (str_in t ["complex"; "complex_mod"]); simpl.
    + destruct (str_in t ["complex_mod"; "sense_mod"]); [|discriminate].
      rewrite (get_tensor_Some _ target_key _ (lookup_insert_eq _ _ _)).
      discriminate.
    + destruct (String.eqb t "rss"); simpl.
      * destruct (str_in t ["complex_mod"; "sense_mod"]); [|discriminate].
        rewrite (get_tensor_Some _ target_key _ (lookup_insert_eq _ _ _)).
        discriminate.
      * rewrite Hsv. destruct sv; try discriminate. simpl.
        destruct (str_in t ["complex_mod"; "sense_mod"]); [|discriminate].
        rewrite (get_tensor_Some _ target_key _ (lookup_insert_eq _ _ _)).
        discriminate.
Qed.

(** C10.  [ComputeImage] does not validate its reconstruction type.  For a
    type that is none of [complex], [complex_mod], [rss], [sense],
    [sense_mod], construction succeeds and the call never raises a
    [ValueError]; on a sample with its k-space tensor it writes the SENSE
    combination (conjugated sensitivity map times image, summed over
    coils, no modulus) when the sensitivity map is present, and raises the
    missing-item error exactly when the sensitivity map is absent. *)
Theorem ComputeImage_unknown_type_is_sense (t : string) :
  t <> "complex" -> t <> "complex_mod" -> t <> "rss" ->
  t <> "sense" -> t <> "sense_mod" ->
  ComputeImage_init kspace_key target_key backward t = Return (stage_of t) /\
  forall sample : gmap string value,
    (forall msg, ComputeImage_call (stage_of t) sample <> Raise (ValueError msg)) /\
    forall kspace : tensor,
      sample !! kspace_key = Some (VTensor kspace) ->
      let image := backward (Some [1; 2]) kspace in
      (forall sensitivity_map : tensor,
         sample !! "sensitivity_map" = Some (VTensor sensitivity_map) ->
         ComputeImage_call (stage_of t) sample
           = Return (<[target_key :=
                        VTensor (tensor_sum 0
                          (complex_multiplication (conjugate sensitivity_map) image))]>
                       sample)) /\
      (sample !! "sensitivity_map" = None <->
       exists item msg,
         ComputeImage_call (stage_of t) sample
           = Raise (ItemNotFoundException item msg)).
Proof.
  intros H1 H2 H3 H4 H5. split; [reflexivity|].
  assert (Hc : str_in t ["complex"; "complex_mod"] = false)
    by (apply str_in_other; repeat constructor; done).
  assert (Hm : str_in t ["complex_mod"; "sense_mod"] = false)
    by (apply str_in_other; repeat constructor; done).
  assert (Hr : String.eqb t "rss" = false) by (by apply String.eqb_neq).
  intros sample. split.
  - intros msg. unfold ComputeImage_call. simpl. rewrite Hc, Hr, Hm.
    unfold get_tensor, getitem.
    destruct (sample !! kspace_key) as [kv|]; [|discriminate]. simpl.
    destruct kv; try discriminate. simpl.
    destruct (sample !! "sensitivity_map") as [sv|]; [|discriminate].
    destruct sv; discriminate.
  - intros kspace Hk image. unfold ComputeImage_call. simpl.
    rewrite Hc, Hr, Hm, (get_tensor_Some _ _ _ Hk). simpl. split.
    + intros sensitivity_map Hs. by rewrite Hs.
    + split.
      * intros ->. by eexists _, _.
      * intros (item & msg & Hraise).
        destruct (sample !! "sensitivity_map") as [sv|]; [|done].
        destruct sv; discriminate.
Qed.

End ComputeImageProps.

(** *** Properties of the builder and of [Compose] *)

Section BuilderProps.
Context `{ops : TransformOps}.

Lemma feed_raise (stages : list stage) (e : error) :
  fold_left feed stages (Raise e) = Raise e.
Proof. induction stages as [|t l IH]; [reflexivity | exact IH]. Qed.

Lemma Compose_call_feeds (stages : list stage) :
  forall (sample : gmap string value) (w : world),
    Compose_call stages sample w = fold_left feed stages (Return (sample, w)).
Proof.
  induction stages as [|t l IH]; intros sample w; [reflexivity|].
  simpl. unfold bind.
  destruct (stage_call t sample w) as [[sample' w']|e].
  - apply IH.
  - symmetry. apply feed_raise.
Qed.

Lemma kinds_of_canonical (cfg : build_config) :
  map kind_of (canonical_stages cfg) = built_stage_kinds cfg.
Proof.
  unfold canonical_stages, built_stage_kinds, stage_kinds_with, is_some.
  destruct cfg as [fw bw mf cr ct icc eps esm ebc smg dam dk irt pc sk sp us].
  simpl.
  destruct cr as [c|]; [destruct (crop_truthy (Some c))|];
    destruct mf; destruct dam; destruct ebc; destruct dk; reflexivity.
Qed.

(** C1 (amended).  For every configuration whose crop is a key, a sequence
    or falsy, [build_mri_transforms] assembles exactly the canonical list:
    tensor materialization, k-space cropping if a crop is configured,
    padding detection, padding application and mask creation if a mask
    function is configured, sensitivity-map estimation, ACS-mask deletion
    if its flag is set, target-image computation, mask application,
    body-coil estimation if its flag is set and a mask function is
    configured, scaling factor, normalization, coil padding of the masked
    k-space and of the sensitivity map, raw k-space deletion if its flag is
    set; a truthy crop that is neither a key nor a sequence makes the
    builder fail.  [Compose] applies the stages in list order, feeding each
    stage's returned sample (and world) to the next and stopping at the
    first error. *)
Theorem build_mri_transforms_canonical (cfg : build_config) :
  (crop_malformed (crop cfg) = false ->
     build_mri_transforms cfg = Return (canonical_stages cfg)) /\
  (crop_malformed (crop cfg) = true ->
     exists msg, build_mri_transforms cfg = Raise (ValueError msg)) /\
  map kind_of (canonical_stages cfg) = built_stage_kinds cfg /\
  forall (stages : list stage) (sample : gmap string value) (w : world),
    Compose_call stages sample w = fold_left feed stages (Return (sample, w)).
Proof.
  split; [|split; [|split; [apply kinds_of_canonical | intros; apply Compose_call_feeds]]].
  - destruct cfg as [fw bw mf cr ct icc eps esm ebc smg dam dk irt pc sk sp us].
    unfold build_mri_transforms, canonical_stages. simpl. intros Hwf.
    destruct cr as [[key|sizes|n]|]; simpl in *.
    + destruct (negb (String.eqb key "")); destruct mf, esm, dam, ebc, dk; reflexivity.
    + destruct (negb (Nat.eqb (length sizes) 0)); destruct mf, esm, dam, ebc, dk; reflexivity.
    + rewrite Hwf. destruct mf, esm, dam, ebc, dk; reflexivity.
    + destruct mf, esm, dam, ebc, dk; reflexivity.
  - destruct cfg as [fw bw mf cr ct icc eps esm ebc smg dam dk irt pc sk sp us].
    unfold build_mri_transforms. simpl. intros Hbad.
    destruct cr as [[key|sizes|n]|]; simpl in *; try discriminate.
    rewrite Hbad. simpl. by eexists.
Qed.

(** C9 (amended).  A malformed crop specification and an unknown
    sensitivity-map type are rejected with a [ValueError] when the stage is
    constructed.  An unsupported dimensionality is not: [ToTensor] is
    constructed without any check, and raises the [ValueError] when it is
    called on a sample whose k-space is not 2D or 3D plus coil. *)
Theorem invalid_configuration_errors :
  (forall n fw bw center sampler seeded sigma,
     exists msg,
       CropKspace_init (CropScalar n) fw bw center sampler seeded sigma
         = Raise (ValueError msg)) /\
  (forall key bw type_of_map sigma,
     type_of_map <> "unit" -> type_of_map <> "rss_estimate" ->
     exists msg,
       EstimateSensitivityMap_init key bw type_of_map sigma = Raise (ValueError msg)) /\
  ToTensor_init = Return ToTensor /\
  (forall (sample : gmap string value) kv shp,
     sample !! "kspace" = Some kv -> value_shape kv = Return shp ->
     length shp <> 3%nat -> length shp <> 4%nat ->
     exists msg, ToTensor_call sample = Raise (ValueError msg)).
Proof.
  repeat split.
  - intros. by eexists.
  - intros key bw t sigma H1 H2. unfold EstimateSensitivityMap_init.
    rewrite str_in_other by (repeat constructor; done). by eexists.
  - intros sample kv shp Hk Hs H3 H4. unfold ToTensor_call, getitem.
    rewrite Hk. simpl. rewrite Hs. simpl.
    destruct (Z.eqb_spec (Z.of_nat (length shp) - 1) 2); [lia|].
    destruct (Z.eqb_spec (Z.of_nat (length shp) - 1) 3); [lia|].
    simpl. by eexists.
Qed.

End BuilderProps.

(** *** Properties of [PadCoilDimension] *)

Lemma slice_length (off n : nat) (l : list Q) :
  (off + n <= length l)%nat -> length (slice off n l) = n.
Proof. intros H. unfold slice. rewrite length_take, length_drop. lia. Qed.

Lemma slice_app_l (off n : nat) (a b : list Q) :
  (off + n <= length a)%nat -> slice off n (a ++ b) = slice off n a.
Proof.
  intros H. unfold slice. rewrite drop_app_le by lia.
  rewrite take_app_le; [done|]. rewrite length_drop. lia.
Qed.

Lemma slice_app_r (off n : nat) (a b : list Q) :
  slice (length a + off) n (a ++ b) = slice off n b.
Proof. unfold slice. by rewrite drop_app_add. Qed.

Lemma slice_slice (a n off k : nat) (l : list Q) :
  (off + k <= n)%nat -> slice off k (slice a n l) = slice (a + off) k l.
Proof.
  intros H. unfold slice. replace n with (off + (n - off))%nat at 1 by lia.
  rewrite <- take_drop_commute, drop_drop, take_take. f_equal. lia.
Qed.

Lemma slice_replicate (off n m : nat) (x : Q) :
  (off + n <= m)%nat -> slice off n (replicate m x) = replicate n x.
Proof.
  intros H. unfold slice. rewrite drop_replicate, take_replicate. f_equal. lia.
Qed.

Lemma slice_concat_block (m : nat) (bs : list (list Q)) :
  Forall (fun b => length b = m) bs ->
  forall i off n b,
    bs !! i = Some b -> (off + n <= m)%nat ->
    slice (i * m + off) n (concat bs) = slice off n b.
Proof.
  induction 1 as [|b0 bs Hb0 _ IH]; intros i off n b Hi Hle; [done|].
  destruct i as [|i]; simpl in *.
  - injection Hi as ->. apply slice_app_l. lia.
  - replace (m + i * m + off)%nat with (length b0 + (i * m + off))%nat by lia.
    rewrite slice_app_r. by apply IH.
Qed.

Lemma zip_with_map_same {A B C D} (h : B -> C -> D) (f : A -> B) (g : A -> C) (l : list A) :
  zip_with h (map f l) (map g l) = map (fun x => h (f x) (g x)) l.
Proof. induction l as [|x l IH]; simpl; [done | by rewrite IH]. Qed.

Lemma concat_replicate_blocks (outer n : nat) (x : Q) (l : list nat) :
  length l = outer ->
  concat (map (fun _ => replicate n x) l) = replicate (outer * n) x.
Proof.
  revert outer. induction l as [|i l IH]; intros outer <-; simpl; [done|].
  rewrite (IH (length l) eq_refl). by rewrite replicate_add.
Qed.

Lemma prod_app (a b : list nat) : prod (a ++ b) = (prod a * prod b)%nat.
Proof. induction a as [|x a IH]; simpl; [lia | rewrite IH; lia]. Qed.

Lemma prod_split (s : list nat) (d c : nat) :
  s !! d = Some c ->
  prod s = (prod (take d s) * (c * prod (drop (S d) s)))%nat.
Proof.
  intros H. rewrite <- (take_drop_middle s d c H) at 1.
  rewrite prod_app. reflexivity.
Qed.

Lemma select_shape_eq (d j : nat) (t : tensor) (outer c inner : nat) :
  prod (take d (shape t)) = outer -> shape t !! d = Some c ->
  prod (drop (S d) (shape t)) = inner ->
  select d j t =
    concat (map (fun i => slice (i * (c * inner) + j * inner) inner (data t))
                (seq 0 outer)).
Proof. intros <- Hc <-. unfold select. by rewrite Hc. Qed.

Lemma length_concat_uniform (m : nat) (bs : list (list Q)) :
  Forall (fun b => length b = m) bs -> length (concat bs) = (length bs * m)%nat.
Proof.
  induction 1 as [|b bs Hb _ IH]; simpl; [done|]. rewrite length_app, IH, Hb. lia.
Qed.

Lemma cat_zeros_spec (t : tensor) (d c n0 : nat) :
  wf_tensor t -> shape t !! d = Some c ->
  exists padded,
    cat d (zeros (<[d := n0]> (shape t))) t = Return padded /\
    shape padded = <[d := (n0 + c)%nat]> (shape t) /\
    wf_tensor padded /\
    (forall j, (j < n0)%nat ->
       select d j padded
         = replicate (prod (take d (shape t)) * prod (drop (S d) (shape t))) 0%Q) /\
    (forall j, (j < c)%nat -> select d (n0 + j) padded = select d j t).
Proof.
  intros Hwf Hc. pose proof (lookup_lt_Some _ _ _ Hc) as Hd.
  set (outer := prod (take d (shape t))).
  set (inner := prod (drop (S d) (shape t))).
  assert (Hlen : length (data t) = (outer * (c * inner))%nat)
    by (unfold wf_tensor in Hwf; rewrite Hwf; by apply prod_split).
  unfold cat. cbn [shape data zeros].
  rewrite list_lookup_insert_eq by done. rewrite Hc.
  rewrite take_insert_ge by lia. rewrite drop_insert_lt by lia.
  rewrite bool_decide_eq_true_2 by done.
  fold outer inner. eexists. split; [reflexivity|]. cbn [shape data].
  assert (Hshape : take d (shape t) ++ (n0 + c)%nat :: drop (S d) (shape t)
                   = <[d := (n0 + c)%nat]> (shape t))
    by (symmetry; by apply insert_take_drop).
  set (F := fun i => replicate (n0 * inner) 0%Q ++ slice (i * (c * inner)) (c * inner) (data t)).
  assert (Hdata :
    concat (zip_with app
              (blocks outer (n0 * inner)
                 (replicate (prod (<[d := n0]> (shape t))) 0%Q))
              (blocks outer (c * inner) (data t)))
    = concat (map F (seq 0 outer))).
  { unfold blocks. rewrite zip_with_map_same. f_equal.
    apply map_ext_in. intros i Hi. apply in_seq in Hi. unfold F. f_equal.
    apply slice_replicate.
    rewrite (prod_split _ d n0) by (by apply list_lookup_insert_eq).
    rewrite take_insert_ge by lia. rewrite drop_insert_lt by lia.
    fold outer inner. nia. }
  rewrite Hdata.
  assert (HF : Forall (fun b => length b = ((n0 + c) * inner)%nat) (map F (seq 0 outer))).
  { apply Forall_forall. intros b Hb. apply list_elem_of_In, in_map_iff in Hb.
    destruct Hb as (i & <- & Hi). apply in_seq in Hi. unfold F.
    rewrite length_app, length_replicate, slice_length; nia. }
  assert (Hsel : forall j,
    select d j (mkTensor (take d (shape t) ++ (n0 + c)%nat :: drop (S d) (shape t))
                  (concat (map F (seq 0 outer))))
    = concat (map (fun i => slice (j * inner) inner (F i)) (seq 0 outer)) \/
      (n0 + c <= j)%nat).
  { intros j. destruct (le_lt_dec (n0 + c) j) as [Hj|Hj]; [by right | left].
    rewrite (select_shape_eq d j _ outer (n0 + c) inner); cbn [shape data].
    - f_equal. apply map_ext_in. intros i Hi. apply in_seq in Hi.
      apply (slice_concat_block _ _ HF).
      + rewrite list_lookup_fmap, lookup_seq_lt by lia. reflexivity.
      + nia.
    - rewrite Hshape. by rewrite take_insert_ge by lia.
    - rewrite Hshape. by apply list_lookup_insert_eq.
    - rewrite Hshape. by rewrite drop_insert_lt by lia. }
  split; [exact Hshape|]. split; [|split].
  - unfold wf_tensor. cbn [shape data]. rewrite Hshape.
    rewrite (prod_split _ d (n0 + c)) by (by apply list_lookup_insert_eq).
    rewrite take_insert_ge by lia. rewrite drop_insert_lt by lia. fold outer inner.
    rewrite (length_concat_uniform _ _ HF), length_map, length_seq. lia.
  - intros j Hj. destruct (Hsel j) as [-> | ?]; [|lia].
    rewrite <- (concat_replicate_blocks outer inner 0%Q (seq 0 outer))
      by apply length_seq.
    f_equal. apply map_ext. intros i. unfold F.
    rewrite slice_app_l by (rewrite length_replicate; nia).
    apply slice_replicate. nia.
  - intros j Hj. destruct (Hsel (n0 + j)%nat) as [-> | ?]; [|lia].
    rewrite (select_shape_eq d j t outer c inner) by done.
    f_equal. apply map_ext_in. intros i Hi. apply in_seq in Hi. unfold F.
    replace ((n0 + j) * inner)%nat
      with (length (replicate (n0 * inner) 0%Q) + j * inner)%nat
      by (rewrite length_replicate; lia).
    rewrite slice_app_r. apply slice_slice. nia.
Qed.

(** C8 (amended).  On a sample that holds a well-formed tensor under the
    configured key, with [c] coils along the coil axis, and for a target [t]:
    when [t] is unset, zero, or equal to [c], [PadCoilDimension] returns the
    sample unchanged; when [t] is not zero and [c] exceeds [t], it raises
    (a [ValueError] when the sample has a filename to report); when [c] is
    below [t], the field gets [t] coils, of which the leading [t - c] slots
    are entirely zero and the trailing [c] slots are the original slots in
    order, every other field being kept. *)
Theorem PadCoilDimension_pads_leading_zeros
    (num_coils : option Z) (key : string) (coil_dim : Z)
    (sample : gmap string value) (t : tensor) (d c : nat) :
  sample !! key = Some (VTensor t) ->
  wf_tensor t ->
  norm_index coil_dim (length (shape t)) = Some d ->
  shape t !! d = Some c ->
  ((num_coils = None \/ num_coils = Some 0 \/ num_coils = Some (Z.of_nat c)) ->
     PadCoilDimension_call num_coils key coil_dim sample = Return sample) /\
  (forall nc, num_coils = Some nc -> nc <> 0 -> nc < Z.of_nat c ->
     (exists e, PadCoilDimension_call num_coils key coil_dim sample = Raise e) /\
     (is_Some (sample !! "filename") ->
      exists msg,
        PadCoilDimension_call num_coils key coil_dim sample = Raise (ValueError msg))) /\
  (forall nc, num_coils = Some nc -> Z.of_nat c < nc ->
     exists padded,
       PadCoilDimension_call num_coils key coil_dim sample
         = Return (<[key := VTensor padded]> sample) /\
       shape padded = <[d := Z.to_nat nc]> (shape t) /\
       wf_tensor padded /\
       (forall j, (j < Z.to_nat nc - c)%nat ->
          select d j padded
            = replicate (prod (take d (shape t)) * prod (drop (S d) (shape t))) 0%Q) /\
       (forall j, (j < c)%nat ->
          select d (Z.to_nat nc - c + j) padded = select d j t)).
Proof.
  intros Hkey Hwf Hd Hc. unfold PadCoilDimension_call. repeat split.
  - intros [-> | [-> | ->]]; [done | done |].
    destruct (Z.eqb_spec (Z.of_nat c) 0); [done|].
    rewrite Hkey. simpl. rewrite Hd, Hc. simpl.
    rewrite Z.ltb_irrefl, Z.eqb_refl. reflexivity.
  - subst num_coils. destruct (Z.eqb_spec nc 0); [done|].
    rewrite Hkey. simpl. rewrite Hd, Hc. simpl.
    destruct (Z.ltb_spec nc (Z.of_nat c)); [|lia].
    unfold getitem. destruct (sample !! "filename"); simpl; by eexists.
  - intros [f Hf]. subst num_coils. destruct (Z.eqb_spec nc 0); [done|].
    rewrite Hkey. simpl. rewrite Hd, Hc. simpl.
    destruct (Z.ltb_spec nc (Z.of_nat c)); [|lia].
    unfold getitem. rewrite Hf. simpl. by eexists.
  - intros nc -> Hlt. destruct (Z.eqb_spec nc 0); [lia|].
    rewrite Hkey. simpl. rewrite Hd, Hc. simpl.
    destruct (Z.ltb_spec nc (Z.of_nat c)); [lia|].
    destruct (Z.eqb_spec (Z.of_nat c) nc); [lia|].
    replace (Z.to_nat (Z.max (nc - Z.of_nat c) 0)) with (Z.to_nat nc - c)%nat by lia.
    destruct (cat_zeros_spec t d c (Z.to_nat nc - c) Hwf Hc)
      as (padded & Hcat & Hshape & Hwfp & Hzero & Hkeep).
    rewrite Hcat. simpl. exists padded. split; [reflexivity|].
    split; [|done]. rewrite Hshape. f_equal. lia.
Qed.

(** *** Properties of [ComputeScalingFactor] *)

Lemma Qle_bool_total (x y : Q) : Qle_bool x y = false -> (y <= x)%Q.
Proof.
  intros H. destruct (Qlt_le_dec x y) as [Hlt|Hle]; [|done].
  apply Qlt_le_weak, Qle_bool_iff in Hlt. congruence.
Qed.

Lemma Qltb_lt (x y : Q) : Qltb x y = true <-> (x < y)%Q.
Proof.
  unfold Qltb. rewrite negb_true_iff. split.
  - intros H. apply Qnot_le_lt. intros Hle. apply Qle_bool_iff in Hle. congruence.
  - intros H. destruct (Qle_bool y x) eqn:E; [|done].
    apply Qle_bool_iff in E. exfalso. by apply (Qlt_not_le x y).
Qed.

Lemma Qopp_opp (x : Q) : (- - x)%Q = x.
Proof. destruct x as [a b]. unfold Qopp. simpl. by rewrite Z.opp_involutive. Qed.

Lemma insert_sorted_perm (x : Q) (l : list Q) : Permutation (insert_sorted x l) (x :: l).
Proof.
  induction l as [|y l IH]; simpl; [done|].
  destruct (Qle_bool x y); [done|].
  rewrite IH. apply perm_swap.
Qed.

Lemma sort_asc_perm (l : list Q) : Permutation (sort_asc l) l.
Proof.
  induction l as [|x l IH]; simpl; [done|].
  rewrite insert_sorted_perm. by constructor.
Qed.

Lemma insert_sorted_sorted (x : Q) (l : list Q) :
  StronglySorted Qle l -> StronglySorted Qle (insert_sorted x l).
Proof.
  induction 1 as [|y l Hs IH Hy]; simpl.
  - repeat constructor.
  - destruct (Qle_bool x y) eqn:E.
    + apply Qle_bool_iff in E. constructor; [by constructor|].
      constructor; [done|]. eapply Forall_impl; [exact Hy|].
      intros z Hz. by apply Qle_trans with y.
    + apply Qle_bool_total in E. constructor; [done|].
      apply Forall_forall. intros z Hz.
      apply list_elem_of_In in Hz.
      apply (Permutation_in _ (insert_sorted_perm x l)) in Hz.
      destruct Hz as [<- | Hz]; [done|].
      rewrite Forall_forall in Hy. apply Hy. by apply list_elem_of_In.
Qed.

Lemma sort_asc_sorted (l : list Q) : StronglySorted Qle (sort_asc l).
Proof.
  induction l as [|x l IH]; simpl; [constructor | by apply insert_sorted_sorted].
Qed.

Lemma count_if_perm (f : Q -> bool) (l l' : list Q) :
  Permutation l l' -> count_if f l = count_if f l'.
Proof. induction 1; simpl; lia. Qed.

Lemma count_if_none (f : Q -> bool) (l : list Q) :
  Forall (fun x => f x = false) l -> count_if f l = 0%nat.
Proof. induction 1 as [|x l Hx _ IH]; simpl; [done | by rewrite Hx, IH]. Qed.

Lemma count_if_le_length (f : Q -> bool) (l : list Q) : (count_if f l <= length l)%nat.
Proof. induction l as [|x l IH]; simpl; [lia | destruct (f x); lia]. Qed.

(** In an ascending list, the element at index [i] has at most [i]
    elements strictly below it and more than [i] elements at most it. *)
Lemma sorted_index_rank (s : list Q) :
  StronglySorted Qle s ->
  forall i v, s !! i = Some v ->
    (count_if (fun x => Qltb x v) s <= i)%nat /\
    (i < count_if (fun x => Qle_bool x v) s)%nat.
Proof.
  induction 1 as [|y s Hs IH Hy]; intros i v Hi; [done|].
  destruct i as [|i]; simpl in *.
  - injection Hi as ->.
    assert (Hvv : Qle_bool v v = true) by (apply Qle_bool_iff, Qle_refl).
    rewrite Hvv. unfold Qltb at 1. rewrite Hvv. simpl. split; [|lia].
    rewrite count_if_none; [lia|].
    eapply Forall_impl; [exact Hy|]. intros z Hz. unfold Qltb.
    apply Qle_bool_iff in Hz. by rewrite Hz.
  - destruct (IH i v Hi) as [Hlo Hhi].
    assert (Hyv : Qle_bool y v = true).
    { apply Qle_bool_iff. rewrite Forall_forall in Hy. apply Hy.
      by eapply list_elem_of_lookup_2. }
    rewrite Hyv. destruct (Qltb y v); simpl; lia.
Qed.

Lemma count_if_opp (f g : Q -> bool) (l : list Q) :
  (forall x, f (- x)%Q = g x) -> count_if f (map Qopp l) = count_if g l.
Proof. intros H. induction l as [|x l IH]; simpl; [done | by rewrite H, IH]. Qed.

Lemma Qle_bool_opp (x y : Q) : Qle_bool (- x) (- y) = Qle_bool y x.
Proof.
  destruct (Qle_bool y x) eqn:E.
  - apply Qle_bool_iff. apply Qle_bool_iff in E. by apply Qopp_le_compat.
  - destruct (Qle_bool (- x) (- y)) eqn:E'; [|done].
    apply Qle_bool_iff, Qopp_le_compat in E'. rewrite !Qopp_opp in E'.
    apply Qle_bool_iff in E'. congruence.
Qed.

(** What the negate, [kthvalue], negate of the code selects. *)
Lemma kthvalue_neg_rank (mags : list Q) (k : Z) :
  1 <= k <= Z.of_nat (length mags) ->
  exists v, kthvalue (map Qopp mags) k = Return v /\
            rank_from_largest k (- v)%Q mags.
Proof.
  intros Hk. unfold kthvalue. rewrite length_map.
  destruct (Z.leb_spec 1 k); [|lia].
  destruct (Z.leb_spec k (Z.of_nat (length mags))); [|lia]. simpl.
  pose proof (sort_asc_perm (map Qopp mags)) as Hperm.
  destruct (lookup_lt_is_Some_2 (sort_asc (map Qopp mags)) (Z.to_nat (k - 1)))
    as [v Hv].
  { rewrite (Permutation_length Hperm), length_map. lia. }
  rewrite Hv. exists v. split; [done|].
  destruct (sorted_index_rank _ (sort_asc_sorted _) _ _ Hv) as [Hlo Hhi].
  rewrite (count_if_perm _ _ _ Hperm) in Hlo.
  rewrite (count_if_perm _ _ _ Hperm) in Hhi.
  rewrite (count_if_opp _ (fun x => Qltb (- v) x)) in Hlo.
  2:{ intros x. unfold Qltb. f_equal. rewrite <- (Qopp_opp v) at 1.
      apply Qle_bool_opp. }
  rewrite (count_if_opp _ (fun x => Qle_bool (- v) x)) in Hhi.
  2:{ intros x. rewrite <- (Qopp_opp v) at 1. apply Qle_bool_opp. }
  split; [|lia].
  apply list_elem_of_lookup_2, list_elem_of_In in Hv.
  apply (Permutation_in _ Hperm), in_map_iff in Hv.
  destruct Hv as (x & <- & Hx). by rewrite Qopp_opp.
Qed.

Lemma Qmax_fold_spec (rest : list Q) :
  forall x, is_maximum (fold_left Qmax rest x) (x :: rest).
Proof.
  induction rest as [|y rest IH]; intros x; simpl.
  - split; [by left|]. intros z [<- | []]. apply Qle_refl.
  - destruct (IH (Qmax x y)) as [Hin Hmax]. split.
    + destruct Hin as [Hin | Hin]; [|by right; right].
      rewrite <- Hin. unfold Qmax. destruct (Qle_bool x y); [right; by left | by left].
    + assert (Hx : (x <= Qmax x y)%Q /\ (y <= Qmax x y)%Q).
      { unfold Qmax. destruct (Qle_bool x y) eqn:E.
        - apply Qle_bool_iff in E. split; [done | apply Qle_refl].
        - apply Qle_bool_total in E. split; [apply Qle_refl | done]. }
      intros z [<- | [<- | Hz]].
      * apply Qle_trans with (Qmax x y); [tauto|]. apply Hmax. by left.
      * apply Qle_trans with (Qmax x y); [tauto|]. apply Hmax. by left.
      * apply Hmax. by right.
Qed.

Lemma tensor_max_spec (l : list Q) :
  l <> [] -> exists m, tensor_max l = Return m /\ is_maximum m l.
Proof.
  destruct l as [|x rest]; [done|]. intros _. eexists. split; [reflexivity|].
  apply Qmax_fold_spec.
Qed.

Lemma count_if_compl (f : Q -> bool) (l : list Q) :
  (count_if f l + count_if (fun x => negb (f x)) l = length l)%nat.
Proof. induction l as [|x l IH]; simpl; [done | destruct (f x); simpl; lia]. Qed.

Lemma rank_largest_smallest (k : Z) (r : Q) (l : list Q) :
  rank_from_largest k r l -> rank_from_smallest (Z.of_nat (length l) - k + 1) r l.
Proof.
  intros [Hin [Hlo Hhi]]. split; [done|].
  pose proof (count_if_compl (fun x => Qle_bool r x) l) as H1.
  pose proof (count_if_compl (fun x => Qle_bool x r) l) as H2.
  unfold Qltb in *. lia.
Qed.

Section ScalingProps.
Context `{ops : TransformOps}.

(** C3 (amended).  Without a source key the factor is 1.0; with the source
    key [scaling_factor] the stored value passes through.  Otherwise, for a
    source tensor whose modulus has [N] elements: with no percentile (or a
    zero one) the factor is the maximum magnitude; with a percentile [p]
    the factor is the magnitude of rank [int((1 - p) * N) + 1] counted from
    the largest (the product taken in binary64), that is of rank
    [N - int((1 - p) * N)] counted from the smallest. *)
Theorem ComputeScalingFactor_selects
    (normalize_key : option string) (percentile : option spec_float)
    (scaling_factor_key : string) (sample : gmap string value) :
  let call :=
    ComputeScalingFactor_call normalize_key percentile scaling_factor_key sample in
  ((normalize_key = None \/ normalize_key = Some "") ->
     call = Return (<[scaling_factor_key := VFloat 1]> sample)) /\
  (forall v, normalize_key = Some "scaling_factor" ->
     sample !! "scaling_factor" = Some v ->
     call = Return (<[scaling_factor_key := v]> sample)) /\
  (forall nk t,
     normalize_key = Some nk -> nk <> "scaling_factor" -> nk <> "" ->
     sample !! nk = Some (VTensor t) ->
     let mags := data (modulus None t) in
     ((percentile = None \/ exists p, percentile = Some p /\ f64_truthy p = false) ->
      mags <> [] ->
      exists m,
        call = Return (<[scaling_factor_key := VTensor (scalar_tensor m)]> sample) /\
        is_maximum m mags) /\
     (forall p k,
        percentile = Some p -> f64_truthy p = true ->
        percentile_rank p (length mags) = Return k ->
        1 <= k <= Z.of_nat (length mags) ->
        exists r,
          call = Return (<[scaling_factor_key := VTensor (scalar_tensor r)]> sample) /\
          rank_from_largest k r mags /\
          rank_from_smallest (Z.of_nat (length mags) - k + 1) r mags)).
Proof.
  intros call. unfold call, ComputeScalingFactor_call. split; [|split].
  - intros [-> | ->]; reflexivity.
  - intros v -> Hv. simpl. unfold getitem. by rewrite Hv.
  - intros nk t -> Hsf Hempty Ht. cbv zeta.
    apply String.eqb_neq in Hsf, Hempty. rewrite Hsf, Hempty.
    rewrite (get_tensor_Some _ _ _ Ht). simpl. split.
    + intros Hp Hne.
      destruct (tensor_max_spec _ Hne) as (m & Hm & Hmax).
      exists m. split; [|done].
      destruct Hp as [-> | (p & -> & Hp)]; [|rewrite Hp]; by rewrite Hm.
    + intros p k -> Hp Hrank Hk.
      rewrite Hp, length_map, Hrank. simpl.
      destruct (kthvalue_neg_rank _ _ Hk) as (v & Hv & Hr).
      rewrite Hv. simpl. exists (- v)%Q. split; [done|]. split; [done|].
      by apply rank_largest_smallest.
Qed.

End ScalingProps.

(** *** Properties of [CreateSamplingMask] and [CropKspace] *)

Section MaskProps.
Context `{ops : TransformOps}.

Lemma lift_inv {A} (r : result A) (w : world) (a : A) (w' : world) :
  lift r w = Return (a, w') -> r = Return a /\ w' = w.
Proof. unfold lift. destruct r; intros H; inversion H; auto. Qed.

(** What a call of [CreateSamplingMask] does, step by step, when the data
    it needs are in the sample. *)
Lemma CreateSamplingMask_run (f : mask_func_t) (shp : option (list (option nat)))
    (use_seed return_acs : bool) (sample : gmap string value) (w : world)
    (mshape : list nat) (seed : option seed_t) (kv : value) (kshape : list nat) :
  sampling_mask_shape shp sample = Return mshape ->
  filename_seed use_seed sample = Return seed ->
  sample !! "kspace" = Some kv -> value_shape kv = Return kshape ->
  (forall pv, sample !! "padding" = Some pv -> exists p, pv = VTensor p) ->
  let m1 := f mshape seed false (rng w) in
  let mask :=
    match sample !! "padding" with
    | Some (VTensor p) => apply_padding (fst m1) p
    | _ => fst m1
    end in
  let m2 := f (tail_shape kshape) seed true (snd m1) in
  CreateSamplingMask_call f shp use_seed return_acs sample w =
    Return
      (if return_acs
       then <["acs_mask" := VTensor (fst m2)]> (<["sampling_mask" := VTensor mask]> sample)
       else <["sampling_mask" := VTensor mask]> sample,
       if return_acs
       then mkWorld (snd m2)
              (trace w ++ [MaskCall mshape seed false;
                           MaskCall (tail_shape kshape) seed true])
       else mkWorld (snd m1) (trace w ++ [MaskCall mshape seed false])).
Proof.
  intros Hshape Hseed Hk Hks Hpad m1 mask m2. subst mask m2.
  unfold CreateSamplingMask_call, bind, lift, ret, call_mask_func.
  rewrite Hshape, Hseed. cbn [rng trace].
  fold m1. destruct m1 as [mk g]. cbn [fst snd].
  destruct (sample !! "padding") as [pv|] eqn:Ep.
  - destruct (Hpad pv eq_refl) as [p ->]. cbn [as_tensor].
    destruct return_acs; [|reflexivity].
    unfold getitem. rewrite lookup_insert_ne by done. rewrite Hk, Hks.
    cbn [rng trace].
    destruct (f (tail_shape kshape) seed true g) as [acs g']. cbn [fst snd].
    by rewrite <- app_assoc.
  - destruct return_acs; [|reflexivity].
    unfold getitem. rewrite lookup_insert_ne by done. rewrite Hk, Hks.
    cbn [rng trace].
    destruct (f (tail_shape kshape) seed true g) as [acs g']. cbn [fst snd].
    by rewrite <- app_assoc.
Qed.

(** [sampling_mask_shape] and [filename_seed] read the sample only through
    the filename and the shape of the k-space. *)
Lemma sampling_mask_shape_ext shp (s1 s2 : gmap string value) kv1 kv2 kshape :
  s1 !! "kspace" = Some kv1 -> s2 !! "kspace" = Some kv2 ->
  value_shape kv1 = Return kshape -> value_shape kv2 = Return kshape ->
  sampling_mask_shape shp s1 = sampling_mask_shape shp s2.
Proof.
  intros H1 H2 Hs1 Hs2. unfold sampling_mask_shape, getitem.
  rewrite H1, H2. simpl. rewrite Hs1, Hs2. reflexivity.
Qed.

Lemma filename_seed_Some (sample : gmap string value) (fn : value) :
  sample !! "filename" = Some fn ->
  filename_seed true sample = Return (Some (ords (str_of fn))).
Proof. intros H. unfold filename_seed, getitem. by rewrite H. Qed.


Lemma convert_if_present_other key f (s s' : gmap string value) k :
  convert_if_present key f s = Return s' -> k <> key -> s' !! k = s !! k.
Proof.
  unfold convert_if_present. destruct (s !! key) as [v|].
  - destruct (f v) as [v'|]; [|discriminate]. simpl. intros [= <-] Hne.
    by rewrite lookup_insert_ne.
  - by intros [= <-] _.
Qed.

Lemma ToTensor_call_kspace (s s' : gmap string value) (a : ndarray) :
  s !! "kspace" = Some (VArray a) -> ToTensor_call s = Return s' ->
  s' !! "kspace" = Some (VTensor (to_tensor a)).
Proof.
  intros Hk. unfold ToTensor_call, getitem. rewrite Hk. simpl.
  destruct (negb _); [discriminate|]. simpl.
  repeat (match goal with
          | |- rbind (convert_if_present ?key ?f ?m) _ = _ -> _ =>
              let E := fresh "E" in
              destruct (convert_if_present key f m) eqn:E; [|discriminate];
              apply convert_if_present_other with (k := "kspace") in E; [|done];
              simpl
          end).
  intros Efin. apply convert_if_present_other with (k := "kspace") in Efin; [|done].
  rewrite Efin.
  repeat match goal with
         | H : _ !! "kspace" = _ !! "kspace" |- _ => rewrite H; clear H
         end.
  apply lookup_insert_eq.
Qed.

Lemma CropKspace_call_kspace (ck : CropKspace_t) (sizes : list (option nat))
    (s s' : gmap string value) (w w' : world) (k : tensor) :
  ck_crop ck = CropShape sizes -> s !! "kspace" = Some (VTensor k) ->
  CropKspace_call ck s w = Return (s', w') ->
  exists cropped,
    s' = <["kspace" := VTensor (ck_forward_operator ck None cropped)]> s /\
    (ck_image_space_center_crop ck = true ->
       cropped = complex_center_crop (ck_backward_operator ck None k) sizes) /\
    (ck_image_space_center_crop ck = false ->
       exists offsets,
         cropped = crop_at offsets sizes (ck_backward_operator ck None k)).
Proof.
  intros Hc Hk. unfold CropKspace_call, bind, lift, ret.
  rewrite (get_tensor_Some _ _ _ Hk), Hc. cbn [crop_shape_of].
  destruct (ck_image_space_center_crop ck).
  - intros [= <- <-]. eexists. split; [reflexivity|]. split; [done | discriminate].
  - destruct (filename_seed _ s) as [seed|]; [|discriminate].
    unfold complex_random_crop.
    destruct (random_crop_offsets _ _ _ _ _ _) as [offsets g].
    intros [= <- <-]. eexists. split; [reflexivity|]. split; [discriminate|].
    intros _. by eexists.
Qed.

Lemma padding_stages_kspace (eps : Q) (s s' : gmap string value) (w w' : world)
    (k : tensor) :
  s !! "kspace" = Some (VTensor k) ->
  Compose_call [ComputeZeroPadding "kspace" "padding" eps;
                ApplyZeroPadding "kspace" "padding"] s w = Return (s', w') ->
  exists padding, s' !! "kspace" = Some (VTensor (apply_padding k padding)).
Proof.
  intros Hk. cbn [Compose_call stage_call]. unfold bind, lift, ret.
  unfold ComputeZeroPadding_call. rewrite (get_tensor_Some _ _ _ Hk). cbn [rbind].
  destruct (unsqueeze _ _) as [p0|]; [|discriminate]. cbn [rbind].
  destruct (unsqueeze _ p0) as [padding|]; [|discriminate]. cbn [rbind].
  unfold ApplyZeroPadding_call.
  rewrite (get_tensor_Some _ "kspace" k) by (by rewrite lookup_insert_ne).
  rewrite (get_tensor_Some _ "padding" padding) by apply lookup_insert_eq.
  cbn [rbind]. intros [= <- <-]. exists padding. apply lookup_insert_eq.
Qed.


(** C2 (amended).  With [return_acs] set, [CreateSamplingMask] generates the
    ACS mask by a second call of the mask function, with [return_acs=True],
    the same filename-derived seed as the primary mask, and the shape
    (coil axis dropped) of the k-space the sample holds when the stage
    runs, whatever shape the stage was configured with.  In the canonical
    pipeline built with a crop shape, the stage comes fifth, and the
    k-space it finds is the cropped one: the forward projection of the
    cropped back-projected k-space, with the zero padding applied. *)
Theorem acs_mask_uses_current_kspace_shape :
  (forall (f : mask_func_t) shp use_seed (sample : gmap string value) w
          mshape seed kv kshape,
     sampling_mask_shape shp sample = Return mshape ->
     filename_seed use_seed sample = Return seed ->
     sample !! "kspace" = Some kv -> value_shape kv = Return kshape ->
     (forall pv, sample !! "padding" = Some pv -> exists p, pv = VTensor p) ->
     exists (s' : gmap string value) w',
       CreateSamplingMask_call f shp use_seed true sample w = Return (s', w') /\
       trace w' = trace w ++ [MaskCall mshape seed false;
                              MaskCall (tail_shape kshape) seed true] /\
       s' !! "acs_mask"
         = Some (VTensor (fst (f (tail_shape kshape) seed true
                                 (snd (f mshape seed false (rng w))))))) /\
  (forall cfg sizes f,
     crop cfg = Some (CropShape sizes) -> sizes <> [] -> mask_func cfg = Some f ->
     canonical_stages cfg !! 4%nat
       = Some (CreateSamplingMask f (Some sizes) (use_seed cfg)
                 (estimate_sensitivity_maps cfg)) /\
     forall (sample : gmap string value) a w (s1 : gmap string value) w1,
       sample !! "kspace" = Some (VArray a) ->
       Compose_call (take 4 (canonical_stages cfg)) sample w = Return (s1, w1) ->
       exists cropped padding,
         s1 !! "kspace"
           = Some (VTensor (apply_padding (forward_operator cfg None cropped) padding)) /\
         (image_center_crop cfg = true ->
            cropped = complex_center_crop
                        (backward_operator cfg None (to_tensor a)) sizes) /\
         (image_center_crop cfg = false ->
            exists offsets,
              cropped = crop_at offsets sizes
                          (backward_operator cfg None (to_tensor a)))).
Proof.
  split.
  - intros f shp us sample w mshape seed kv kshape Hshape Hseed Hk Hks Hpad.
    rewrite (CreateSamplingMask_run f shp us true sample w mshape seed kv kshape)
      by done.
    eexists _, _. split; [reflexivity|]. split; [reflexivity|].
    apply lookup_insert_eq.
  - intros cfg sizes f Hcrop Hne Hmask.
    destruct cfg as [fw bw mf cr ct icc eps esm ebc smg dam dk irt pc sk sp us].
    simpl in *. subst cr mf. unfold canonical_stages. simpl.
    destruct sizes as [|sz sizes]; [done|]. simpl. split; [reflexivity|].
    intros sample a w s1 w1 Hk. unfold bind at 1. unfold lift at 1.
    destruct (ToTensor_call sample) as [s0|] eqn:E0; [|discriminate].
    apply (ToTensor_call_kspace _ _ _ Hk) in E0.
    unfold bind at 1.
    destruct (CropKspace_call _ s0 w) as [[s2 w2]|] eqn:E2; [|discriminate].
    eapply CropKspace_call_kspace in E2; [|reflexivity|exact E0].
    destruct E2 as (cropped & -> & Hcenter & Hrandom). simpl in Hcenter, Hrandom.
    intros Hrest.
    apply (padding_stages_kspace eps _ _ _ _ (fw None cropped)) in Hrest;
      [|apply lookup_insert_eq].
    destruct Hrest as [padding Hp]. by exists cropped, padding.
Qed.


(** C7 (amended).  With seeding enabled, the seed passed to the mask
    function and to the random-crop sampler is the tuple of character codes
    of the sample's filename.  Given a mask function that is deterministic
    in (shape, seed), two calls of [CreateSamplingMask] on samples with the
    same filename, the same k-space shape and the same [padding] field (or
    none) store the same sampling mask, and the same ACS mask when one is
    requested, whatever the state of the random generator.  Given a seeded
    sampler that is deterministic, two calls of the random [CropKspace] on
    samples with the same filename, back-projected shape and crop shape
    draw the same offsets. *)
Theorem seeded_stages_are_deterministic :
  (forall (f : mask_func_t) shp return_acs (s1 s2 : gmap string value) w1 w2
          fn kv1 kv2 kshape mshape,
     (forall sh seed acs g1 g2,
        fst (f sh (Some seed) acs g1) = fst (f sh (Some seed) acs g2)) ->
     s1 !! "filename" = Some fn -> s2 !! "filename" = Some fn ->
     s1 !! "kspace" = Some kv1 -> s2 !! "kspace" = Some kv2 ->
     value_shape kv1 = Return kshape -> value_shape kv2 = Return kshape ->
     sampling_mask_shape shp s1 = Return mshape ->
     s1 !! "padding" = s2 !! "padding" ->
     (forall pv, s1 !! "padding" = Some pv -> exists p, pv = VTensor p) ->
     exists (s1' s2' : gmap string value) w1' w2' events,
       CreateSamplingMask_call f shp true return_acs s1 w1 = Return (s1', w1') /\
       CreateSamplingMask_call f shp true return_acs s2 w2 = Return (s2', w2') /\
       is_Some (s1' !! "sampling_mask") /\
       s1' !! "sampling_mask" = s2' !! "sampling_mask" /\
       (return_acs = true ->
          is_Some (s1' !! "acs_mask") /\ s1' !! "acs_mask" = s2' !! "acs_mask") /\
       trace w1' = trace w1 ++ events /\ trace w2' = trace w2 ++ events /\
       Forall (fun e => exists sh acs,
                 e = MaskCall sh (Some (ords (str_of fn))) acs) events) /\
  (forall (ck : CropKspace_t) (s1 s2 : gmap string value) w1 w2 fn k1 k2 cs,
     ck_image_space_center_crop ck = false ->
     ck_random_crop_sampler_use_seed ck = true ->
     (forall sampler sigma seed ish csh g1 g2,
        fst (random_crop_offsets sampler sigma (Some seed) ish csh g1)
        = fst (random_crop_offsets sampler sigma (Some seed) ish csh g2)) ->
     s1 !! "filename" = Some fn -> s2 !! "filename" = Some fn ->
     s1 !! "kspace" = Some (VTensor k1) -> s2 !! "kspace" = Some (VTensor k2) ->
     shape (ck_backward_operator ck None k1) = shape (ck_backward_operator ck None k2) ->
     crop_shape_of (ck_crop ck) s1 = Return cs ->
     crop_shape_of (ck_crop ck) s2 = Return cs ->
     exists (s1' s2' : gmap string value) w1' w2' offsets,
       CropKspace_call ck s1 w1 = Return (s1', w1') /\
       CropKspace_call ck s2 w2 = Return (s2', w2') /\
       let draw := CropDraw (Some (ords (str_of fn)))
                     (shape (ck_backward_operator ck None k1)) cs offsets in
       trace w1' = trace w1 ++ [draw] /\ trace w2' = trace w2 ++ [draw]).
Proof.
  split.
  - intros f shp return_acs s1 s2 w1 w2 fn kv1 kv2 kshape mshape
      Hdet Hf1 Hf2 Hk1 Hk2 Hs1 Hs2 Hshape Hpad Hpt.
    pose proof (filename_seed_Some _ _ Hf1) as Hseed1.
    pose proof (filename_seed_Some _ _ Hf2) as Hseed2.
    assert (Hshape2 : sampling_mask_shape shp s2 = Return mshape)
      by (by rewrite <- (sampling_mask_shape_ext shp s1 s2 kv1 kv2 kshape)).
    assert (Hpt2 : forall pv, s2 !! "padding" = Some pv -> exists p, pv = VTensor p)
      by (intros pv; rewrite <- Hpad; apply Hpt).
    rewrite (CreateSamplingMask_run f shp true return_acs s1 w1 mshape _ kv1 kshape)
      by done.
    rewrite (CreateSamplingMask_run f shp true return_acs s2 w2 mshape _ kv2 kshape)
      by done.
    set (seed := ords (str_of fn)).
    assert (Hm : fst (f mshape (Some seed) false (rng w1))
                 = fst (f mshape (Some seed) false (rng w2))) by apply Hdet.
    assert (Ha : fst (f (tail_shape kshape) (Some seed) true
                        (snd (f mshape (Some seed) false (rng w1))))
                 = fst (f (tail_shape kshape) (Some seed) true
                          (snd (f mshape (Some seed) false (rng w2)))))
      by apply Hdet.
    eexists _, _, _, _,
      (if return_acs
       then [MaskCall mshape (Some seed) false;
             MaskCall (tail_shape kshape) (Some seed) true]
       else [MaskCall mshape (Some seed) false]).
    split; [reflexivity|]. split; [reflexivity|].
    destruct return_acs; cbn [trace].
    + rewrite !lookup_insert_eq.
      rewrite !(lookup_insert_ne _ "acs_mask" "sampling_mask") by done.
      rewrite !lookup_insert_eq. rewrite <- Hpad, Hm, Ha.
      repeat split; eauto; repeat constructor; by eexists _, _.
    + rewrite !lookup_insert_eq. rewrite <- Hpad, Hm.
      repeat split; eauto; try discriminate; repeat constructor; by eexists _, _.
  - intros ck s1 s2 w1 w2 fn k1 k2 cs Hcenter Hus Hdet Hf1 Hf2 Hk1 Hk2 Hsh Hc1 Hc2.
    unfold CropKspace_call, bind, lift, ret, complex_random_crop.
    rewrite (get_tensor_Some _ _ _ Hk1), (get_tensor_Some _ _ _ Hk2).
    rewrite Hc1, Hc2, Hcenter, Hus.
    rewrite (filename_seed_Some _ _ Hf1), (filename_seed_Some _ _ Hf2).
    rewrite <- Hsh.
    pose proof (Hdet (ck_random_crop_sampler_type ck)
                  (ck_random_crop_sampler_gaussian_sigma ck) (ords (str_of fn))
                  (shape (ck_backward_operator ck None k1)) cs (rng w1) (rng w2)) as Ho.
    destruct (random_crop_offsets _ _ _ _ _ (rng w1)) as [o1 g1].
    destruct (random_crop_offsets _ _ _ _ _ (rng w2)) as [o2 g2].
    simpl in Ho. subst o2.
    eexists _, _, _, _, o1. repeat split; reflexivity.
Qed.

End MaskProps.

(** *** The theorems at concrete samples *)

Section Instances.
Import Reference Examples.

(** [build_mri_transforms] on the crop configuration and on a numeric crop. *)
Lemma build_mri_transforms_canonical_witness :
  (crop_malformed (crop config_crop) = false /\
   build_mri_transforms config_crop = Return (canonical_stages config_crop)) /\
  (crop_malformed (crop config_bad_crop) = true /\
   exists msg, build_mri_transforms config_bad_crop = Raise (ValueError msg)).
Proof.
  split.
  - split; [reflexivity|].
    apply (proj1 (build_mri_transforms_canonical config_crop)). reflexivity.
  - split; [reflexivity|].
    apply (proj1 (proj2 (build_mri_transforms_canonical config_bad_crop))). reflexivity.
Defined.

(** C1, as stated, fails: with body-coil estimation requested and no mask
    function, the builder leaves the body-coil stage out. *)
Lemma build_mri_transforms_skips_body_coil :
  estimate_body_coil_image config_body_coil_no_mask = true /\
  exists stages,
    build_mri_transforms config_body_coil_no_mask = Return stages /\
    map kind_of stages <> spec_stage_kinds config_body_coil_no_mask /\
    ~ In EstimateBodyCoil (map kind_of stages) /\
    In EstimateBodyCoil (spec_stage_kinds config_body_coil_no_mask).
Proof.
  split; [reflexivity|]. eexists. split; [reflexivity|].
  split; [discriminate|]. split.
  - simpl. intros H. repeat (destruct H as [H|H]; [discriminate|]). exact H.
  - simpl. do 5 right. by left.
Defined.

(** C2, as stated, fails: in the pipeline that crops 4 x 4 to 2 x 2, the ACS
    mask is requested with the cropped shape, not with the shape the
    k-space had before the cropping stage. *)
Lemma acs_mask_gets_cropped_shape :
  exists (s0 : gmap string value) k0 (s : gmap string value) w,
    ToTensor_call sample_4x4 = Return s0 /\
    s0 !! "kspace" = Some (VTensor k0) /\
    tail_shape (shape k0) = [4; 4; 2]%nat /\
    run_pipeline config_crop sample_4x4 world0 = Return (s, w) /\
    trace w = [MaskCall [2; 2; 2]%nat (Some (ords "f")) false;
               MaskCall [2; 2; 2]%nat (Some (ords "f")) true].
Proof.
  eexists _, _, _, _. split; [vm_compute; reflexivity|].
  split; [vm_compute; reflexivity|]. split; [reflexivity|].
  split; vm_compute; reflexivity.
Defined.

Lemma acs_mask_uses_current_kspace_shape_witness :
  exists (s' : gmap string value) w',
    CreateSamplingMask_call ones_mask None true true sample_no_padding world0
      = Return (s', w') /\
    trace w' = [MaskCall [2; 2; 2]%nat (Some (ords "f")) false;
                MaskCall [2; 2; 2]%nat (Some (ords "f")) true].
Proof.
  destruct (proj1 acs_mask_uses_current_kspace_shape ones_mask None true
              sample_no_padding world0 [2; 2; 2]%nat (Some (ords "f"))
              (VTensor slice_kspace) [1; 2; 2; 2]%nat)
    as (s' & w' & Hcall & Htrace & _).
  - reflexivity.
  - reflexivity.
  - reflexivity.
  - reflexivity.
  - intros pv H. vm_compute in H. discriminate.
  - exists s', w'. split; [exact Hcall | exact Htrace].
Defined.


(** The rank is computed in binary64: 0.75 is exact, so that
    [(1 - 0.75) * 4] is 1 and the rank 2; [1 - 0.9] rounds below 0.1, so
    that for ten elements the product truncates to 0 and the rank is 1,
    where exact arithmetic gives 2. *)
Example percentile_rank_exact : percentile_rank f64_075 4 = Return 2.
Proof. reflexivity. Qed.

Example percentile_rank_default : percentile_rank f64_099 100 = Return 2.
Proof. reflexivity. Qed.

Example percentile_rank_rounds_down : percentile_rank f64_09 10 = Return 1.
Proof. reflexivity. Qed.

(** C3, as stated, fails: for magnitudes 1, 2, 3, 4 and percentile 0.75 the
    factor is 3, the second largest, while the rank named by the
    specification, the ceiling of (1 - 0.75) * 4 = 1 counted from the
    smallest, is the magnitude 1. *)
Lemma scaling_factor_is_not_spec_rank :
  exists (s' : gmap string value) t,
    ComputeScalingFactor_call (Some "masked_kspace") (Some f64_075) "scaling_factor"
      sample_magnitudes = Return s' /\
    sample_magnitudes !! "masked_kspace" = Some (VTensor t) /\
    data (modulus None t) = [1; 2; 3; 4]%Q /\
    s' !! "scaling_factor" = Some (VTensor (scalar_tensor 3)) /\
    spec_rank (3 # 4) 4 = 1 /\
    ~ rank_from_smallest (spec_rank (3 # 4) 4) 3 (data (modulus None t)) /\
    rank_from_smallest (spec_rank (3 # 4) 4) 1 (data (modulus None t)).
Proof.
  eexists _, _. split; [vm_compute; reflexivity|].
  split; [vm_compute; reflexivity|]. split; [vm_compute; reflexivity|].
  split; [vm_compute; reflexivity|]. split; [reflexivity|]. split.
  - intros [_ [H _]]. vm_compute in H. discriminate.
  - split; [by left|]. vm_compute. split; [reflexivity | discriminate].
Defined.

Lemma ComputeScalingFactor_selects_witness :
  exists r,
    ComputeScalingFactor_call (Some "masked_kspace") (Some f64_075) "scaling_factor"
      sample_magnitudes
      = Return (<["scaling_factor" := VTensor (scalar_tensor r)]> sample_magnitudes) /\
    rank_from_largest 2 r [1; 2; 3; 4]%Q.
Proof.
  destruct (proj2 (proj2 (ComputeScalingFactor_selects (Some "masked_kspace")
              (Some f64_075) "scaling_factor" sample_magnitudes))
              "masked_kspace" (mkTensor [4; 2]%nat [1; 0; 2; 0; 3; 0; 4; 0]%Q)
              eq_refl) as [_ Hrank].
  - discriminate.
  - discriminate.
  - reflexivity.
  - destruct (Hrank f64_075 2 eq_refl eq_refl) as (r & Hcall & Hr & _).
    + reflexivity.
    + vm_compute. split; discriminate.
    + exists r. split; [exact Hcall | exact Hr].
Defined.

Lemma Normalize_guards_division_witness :
  Normalize_call "scaling_factor" default_keys_to_normalize sample_factor_zero
    = Return sample_factor_zero /\
  exists s' : gmap string value,
    Normalize_call "scaling_factor" default_keys_to_normalize sample_factor_two
      = Return s' /\
    s' !! "scaling_diff" = Some (VFloat 0).
Proof.
  split.
  - apply (proj1 (Normalize_guards_division "scaling_factor"
                    default_keys_to_normalize sample_factor_zero)).
    right. exists (VFloat 0). split; reflexivity.
  - destruct (proj2 (Normalize_guards_division "scaling_factor"
                       default_keys_to_normalize sample_factor_two)
                (VFloat 2) 2%Q eq_refl eq_refl eq_refl) as [_ H].
    destruct H as (s' & Hcall & Hdiff & _).
    + intros k w Hin Hk. apply str_in_elem in Hin.
      repeat (apply elem_of_cons in Hin as [-> | Hin]);
        try (vm_compute in Hk; discriminate).
      * vm_compute in Hk. injection Hk as <-. by eexists.
      * by apply elem_of_nil in Hin.
    + exists s'. split; [exact Hcall | exact Hdiff].
Defined.

Lemma ComputeImage_combinations_witness :
  sample_with_map !! "kspace" = Some (VTensor two_coils) /\
  ComputeImage_call (mkComputeImage "kspace" "target" id_operator "complex")
    sample_with_map
  = Return (<["target" := VTensor (tensor_sum 0 two_coils)]> sample_with_map).
Proof.
  split; [reflexivity|].
  apply (proj1 (ComputeImage_combinations "kspace" "target" id_operator
                  sample_with_map two_coils eq_refl)).
Defined.

Lemma ComputeImage_sense_needs_map_witness :
  sample_two_coils !! "sensitivity_map" = None /\
  ComputeImage_call (mkComputeImage "kspace" "target" id_operator "sense")
    sample_two_coils
  = Raise (ItemNotFoundException "sensitivity map"
             "Sensitivity map is required for SENSE reconstruction.") /\
  is_Some (sample_with_map !! "sensitivity_map") /\
  ComputeImage_call (mkComputeImage "kspace" "target" id_operator "sense")
    sample_with_map
  <> Raise (ItemNotFoundException "sensitivity map"
              "Sensitivity map is required for SENSE reconstruction.").
Proof.
  split; [reflexivity|]. split.
  - apply (proj1 (ComputeImage_sense_needs_map "kspace" "target" id_operator
                    sample_two_coils) two_coils "sense");
      [by left | reflexivity | reflexivity].
  - split; [by eexists|].
    apply (proj2 (proj2 (ComputeImage_sense_needs_map "kspace" "target" id_operator
                           sample_with_map))). by eexists.
Defined.

Lemma ComputeImage_unknown_type_is_sense_witness :
  ComputeImage_init "kspace" "target" id_operator "bogus"
    = Return (mkComputeImage "kspace" "target" id_operator "bogus") /\
  exists item msg,
    ComputeImage_call (mkComputeImage "kspace" "target" id_operator "bogus")
      sample_two_coils = Raise (ItemNotFoundException item msg).
Proof.
  destruct (ComputeImage_unknown_type_is_sense "kspace" "target" id_operator "bogus")
    as [Hinit Hcall]; try discriminate.
  split; [exact Hinit|].
  destruct (Hcall sample_two_coils) as [_ Hk].
  destruct (Hk two_coils eq_refl) as [_ Hiff]. apply Hiff. reflexivity.
Defined.


(** C7, as stated, fails: two samples of the same file with the same
    k-space shape get different sampling masks when their padding differs,
    although the mask function is deterministic and is called with the
    same shape and seed. *)
Lemma same_seed_different_sampling_mask :
  sample_unpadded !! "filename" = sample_padded !! "filename" /\
  sample_unpadded !! "kspace" = sample_padded !! "kspace" /\
  exists (s1 s2 : gmap string value) w1 w2,
    CreateSamplingMask_call ones_mask None true false sample_unpadded world0
      = Return (s1, w1) /\
    CreateSamplingMask_call ones_mask None true false sample_padded world0
      = Return (s2, w2) /\
    trace w1 = trace w2 /\
    s1 !! "sampling_mask"
      = Some (VTensor (mkTensor [1; 2; 2; 1]%nat [1; 1; 1; 1]%Q)) /\
    s2 !! "sampling_mask"
      = Some (VTensor (mkTensor [1; 2; 2; 1]%nat [0; 1; 1; 1]%Q)) /\
    s1 !! "sampling_mask" <> s2 !! "sampling_mask".
Proof.
  split; [reflexivity|]. split; [reflexivity|].
  eexists _, _, _, _. split; [vm_compute; reflexivity|].
  split; [vm_compute; reflexivity|]. split; [reflexivity|].
  split; [vm_compute; reflexivity|]. split; [vm_compute; reflexivity|].
  vm_compute. discriminate.
Defined.

Lemma ones_mask_deterministic sh seed acs g1 g2 :
  fst (ones_mask sh (Some seed) acs g1) = fst (ones_mask sh (Some seed) acs g2).
Proof. reflexivity. Qed.

Lemma draw_offsets_deterministic sampler sigma seed ish csh g1 g2 :
  fst (draw_offsets sampler sigma (Some seed) ish csh g1)
  = fst (draw_offsets sampler sigma (Some seed) ish csh g2).
Proof. reflexivity. Qed.

Lemma seeded_stages_are_deterministic_witness :
  exists (s1' s2' : gmap string value) w1' w2',
    CreateSamplingMask_call ones_mask None true true sample_unpadded world0
      = Return (s1', w1') /\
    CreateSamplingMask_call ones_mask None true true sample_unpadded (mkWorld 7 [])
      = Return (s2', w2') /\
    s1' !! "sampling_mask" = s2' !! "sampling_mask".
Proof.
  destruct (proj1 seeded_stages_are_deterministic ones_mask None true
              sample_unpadded sample_unpadded world0 (mkWorld 7 [])
              (VStr "f") (VTensor slice_kspace) (VTensor slice_kspace)
              [1; 2; 2; 2]%nat [2; 2; 2]%nat ones_mask_deterministic)
    as (s1' & s2' & w1' & w2' & events & H1 & H2 & _ & Hm & _);
    try reflexivity.
  - intros pv H. vm_compute in H. injection H as <-. by eexists.
  - exists s1', s2', w1', w2'. split; [exact H1|]. split; [exact H2 | exact Hm].
Defined.

(** C8, as stated, fails: with target 0 the current coil count exceeds
    the target, and the stage returns the sample unchanged instead of
    failing. *)
Lemma PadCoilDimension_target_zero_is_no_op :
  sample_two_coils !! "masked_kspace" = Some (VTensor two_coils) /\
  shape two_coils !! 0%nat = Some 2%nat /\
  0 < Z.of_nat 2 /\
  PadCoilDimension_call (Some 0) "masked_kspace" 0 sample_two_coils
    = Return sample_two_coils.
Proof. repeat split; reflexivity. Defined.

Lemma PadCoilDimension_pads_leading_zeros_witness :
  exists padded,
    PadCoilDimension_call (Some 3) "masked_kspace" 0 sample_two_coils
      = Return (<["masked_kspace" := VTensor padded]> sample_two_coils) /\
    shape padded = [3; 1; 1; 2]%nat /\
    select 0 0 padded = [0; 0]%Q /\
    select 0 1 padded = select 0 0 two_coils /\
    select 0 2 padded = select 0 1 two_coils.
Proof.
  destruct (PadCoilDimension_pads_leading_zeros (Some 3) "masked_kspace" 0
              sample_two_coils two_coils 0 2 eq_refl eq_refl eq_refl eq_refl)
    as (_ & _ & Hpad).
  destruct (Hpad 3 eq_refl) as (padded & Hcall & Hshape & _ & Hzero & Hkeep);
    [lia|].
  exists padded. split; [exact Hcall|]. split; [exact Hshape|].
  split; [apply (Hzero 0%nat); simpl; lia|].
  split; [apply (Hkeep 0%nat); lia | apply (Hkeep 1%nat); lia].
Defined.

(** C9, as stated, fails: the unsupported dimensionality is not rejected at
    construction.  [ToTensor] is constructed without error, and raises only
    when it is called on the sample. *)
Lemma ToTensor_rejects_at_call_time :
  @ToTensor_init = Return ToTensor /\
  ToTensor_call sample_flat
    = Raise (ValueError "Can only cast 2D and 3D data (+coil) to tensor.").
Proof. split; reflexivity. Defined.

Lemma invalid_configuration_errors_witness :
  (exists msg,
     CropKspace_init (CropScalar 5) id_operator id_operator true None true None
       = Raise (ValueError msg)) /\
  (exists msg,
     EstimateSensitivityMap_init "kspace" id_operator "espirit" None
       = Raise (ValueError msg)) /\
  (exists msg, ToTensor_call sample_flat = Raise (ValueError msg)).
Proof.
  destruct (invalid_configuration_errors (ops := reference_ops))
    as (Hcrop & Hmap & _ & Hdim).
  split; [apply Hcrop|]. split; [apply Hmap; discriminate|].
  apply (Hdim sample_flat (VArray (mkNdarray [4; 4]%nat true (ramp 16)))
           [4; 4]%nat); [reflexivity | reflexivity | simpl; lia | simpl; lia].
Defined.

End Instances.

(** ** Further properties of the stages *)

(** *** DeleteKeys, RenameKeys, ApplyMask *)

(** [DeleteKeys] removes exactly the listed fields: a listed field is
    absent afterwards whether or not it was there, every other field is
    as before. *)
Theorem DeleteKeys_call_lookup (keys : list string) (sample : gmap string value)
    (k : string) :
  DeleteKeys_call keys sample !! k
  = if bool_decide (k ∈ keys) then None else sample !! k.
Proof.
  unfold DeleteKeys_call. revert sample.
  induction keys as [|key keys IH]; intros sample; cbn [fold_left].
  - rewrite bool_decide_eq_false_2; [done | apply not_elem_of_nil].
  - rewrite IH. destruct (decide (k ∈ keys)) as [Hin|Hout].
    + rewrite (bool_decide_eq_true_2 _ Hin).
      rewrite bool_decide_eq_true_2; [done | by right].
    + rewrite (bool_decide_eq_false_2 _ Hout).
      destruct (decide (k = key)) as [->|Hne].
      * rewrite bool_decide_eq_true_2; [apply lookup_delete_eq | by left].
      * rewrite lookup_delete_ne by done.
        rewrite bool_decide_eq_false_2; [done|].
        intros Hin. apply elem_of_cons in Hin as [?|?]; contradiction.
Qed.

(** [RenameKeys] on a sample that holds none of the old keys returns the
    sample as it is, whatever the new keys are. *)
Theorem RenameKeys_absent_is_no_op (old_keys new_keys : list string)
    (sample : gmap string value) :
  (forall o, o ∈ old_keys -> sample !! o = None) ->
  RenameKeys_call old_keys new_keys sample = sample.
Proof.
  unfold RenameKeys_call. revert new_keys.
  induction old_keys as [|o old IH]; intros new_keys Habs; [done|].
  destruct new_keys as [|n new]; [done|]. simpl.
  rewrite (Habs o) by (by left). apply IH. intros o' Ho'. apply Habs. by right.
Qed.

(** Renaming one field moves its value: the new key holds it, the old key
    is gone, the other fields are untouched; and when the new key was
    free, renaming back restores the sample. *)
Theorem RenameKeys_moves_and_round_trips (o n : string) (v : value)
    (sample : gmap string value) :
  sample !! o = Some v -> o <> n ->
  let renamed := RenameKeys_call [o] [n] sample in
  renamed !! n = Some v /\ renamed !! o = None /\
  (forall k, k <> o -> k <> n -> renamed !! k = sample !! k) /\
  (sample !! n = None -> RenameKeys_call [n] [o] renamed = sample).
Proof.
  intros Ho Hne renamed. unfold renamed, RenameKeys_call. simpl. rewrite Ho.
  split; [apply lookup_insert_eq|].
  split; [rewrite lookup_insert_ne by done; apply lookup_delete_eq|].
  split.
  - intros k Hko Hkn. rewrite lookup_insert_ne by done. by apply lookup_delete_ne.
  - intros Hn. rewrite lookup_insert_eq. apply map_eq. intros k.
    destruct (decide (k = o)) as [->|Hko].
    + by rewrite lookup_insert_eq.
    + rewrite lookup_insert_ne by done.
      destruct (decide (k = n)) as [->|Hkn].
      * by rewrite lookup_delete_eq.
      * rewrite lookup_delete_ne, lookup_insert_ne by done.
        by apply lookup_delete_ne.
Qed.

Section MoreStageProps.
Context `{ops : TransformOps}.

(** [ApplyMask] checks the k-space key first and the mask key second, and
    reports a missing one as a [ValueError]; with both tensors present it
    writes the masked k-space under the target key and changes nothing
    else, so the source k-space is untouched unless it is the target. *)
Theorem ApplyMask_call_cases (sampling_mask_key input_kspace_key target_kspace_key : string)
    (sample : gmap string value) :
  let call :=
    ApplyMask_call sampling_mask_key input_kspace_key target_kspace_key sample in
  (sample !! input_kspace_key = None -> exists msg, call = Raise (ValueError msg)) /\
  (is_Some (sample !! input_kspace_key) -> sample !! sampling_mask_key = None ->
     exists msg, call = Raise (ValueError msg)) /\
  (forall kspace mask,
     sample !! input_kspace_key = Some (VTensor kspace) ->
     sample !! sampling_mask_key = Some (VTensor mask) ->
     exists s' : gmap string value,
       call = Return s' /\
       s' !! target_kspace_key = Some (VTensor (fst (apply_mask kspace mask))) /\
       forall k, k <> target_kspace_key -> s' !! k = sample !! k).
Proof.
  intros call. unfold call, ApplyMask_call. split; [|split].
  - intros ->. by eexists.
  - intros [kv ->] ->. by eexists.
  - intros kspace mask -> ->. simpl. eexists. split; [reflexivity|].
    split; [apply lookup_insert_eq|]. intros k Hk. by apply lookup_insert_ne.
Qed.

(** [Compose] of a concatenation runs the first list, then the second on
    the sample and world the first returned; an error in the first list is
    the error of the whole, and the second list is not run. *)
Theorem Compose_call_app (l1 l2 : list stage) (sample : gmap string value) (w : world) :
  Compose_call (l1 ++ l2) sample w
  = match Compose_call l1 sample w with
    | Return (s1, w1) => Compose_call l2 s1 w1
    | Raise e => Raise e
    end.
Proof.
  revert sample w. induction l1 as [|t l1 IH]; intros sample w; [reflexivity|].
  simpl. unfold bind. destruct (stage_call t sample w) as [[s0 w0]|e]; [|done].
  apply IH.
Qed.

End MoreStageProps.
